(** * Salt states managing the Jenkins configuration: [_states/jenkins_config.py]

    A shallow embedding of the module and the properties of its
    specification.

    Conventions of the embedding.
    - An lxml element is a value of [etree.Element]; the tree object held by
      the Python code is the root element, and an element handle (what
      [find], [SubElement] and [getroot] return) is the list of child indices
      leading to it from the root.  The code only ever appends children, so
      handles stay valid.  Tails, comments and processing instructions are
      not part of the model, and strings are taken to be acceptable to the
      XML library as tag names and text.
    - Python exceptions are values of [PyExn]; a computation over a state [S]
      is a function [S -> Res A * S] that keeps the state reached when it
      raises.
    - The file system is a finite map from paths to file contents; a path is
      the string [os.path.join] yields, and two spellings of one file (a
      [./] or [..] component, a doubled slash, a link) are not identified.
      The XML parser of the library is a field of the environment [Env], as
      are the
      two values the Salt loader provides ([jenkins.home] of the pillar and
      [__opts__['test']]).
    - [wraps] is read as [functools.wraps], which only copies metadata. *)

From Stdlib Require Import ZArith Ascii String DecimalString.
From stdpp Require Import base strings list gmap.

(** ** Python values and exceptions *)

Inductive PyExn : Type :=
| KeyError (key : string)
| NameError (name : string)
| ArityError (callee : string) (given : nat)
    (* TypeError: callee() called with [given] positional arguments *)
| JoinTypeError (index : nat)
    (* TypeError: sequence item [index]: expected string *)
| ValueError (msg : string)
| IOError (msg : string)
| XMLSyntaxError
| StaleHandle.
    (* no Python counterpart: a handle that denotes no element *)

Inductive Res (A : Type) : Type :=
| Ok (a : A)
| Raise (e : PyExn).
Arguments Ok {A} a.
Arguments Raise {A} e.

(** Values passed for the fields of a cloud entry: strings and integers. *)
Inductive PyVal : Type :=
| PStr (s : string)
| PInt (z : Z).

(** [str(v)] *)
Definition py_str (v : PyVal) : string :=
  match v with
  | PStr s => s
  | PInt z => NilZero.string_of_int (Z.to_int z)
  end.

Definition nl : string := String "010"%char "".
Definition cr : ascii := "013"%char.

(** [s.splitlines()] on a byte string. *)
Fixpoint splitlines_from (cur s : string) : list string :=
  match s with
  | EmptyString => match cur with EmptyString => [] | _ => [cur] end
  | String c rest =>
      if Ascii.eqb c "010"%char then cur :: splitlines_from "" rest
      else if Ascii.eqb c cr then
        match rest with
        | String c' rest' =>
            if Ascii.eqb c' "010"%char then cur :: splitlines_from "" rest'
            else cur :: splitlines_from "" rest
        | EmptyString => cur :: splitlines_from "" rest
        end
      else splitlines_from (cur +:+ String c "") rest
  end.

Definition splitlines (s : string) : list string := splitlines_from "" s.

(** [difflib.unified_diff] returns a generator: the suspended comparison of
    two lists of lines.  Nothing in the module ever iterates over it. *)
Inductive Generator : Type :=
| unified_diff (a b : list string).

(** The items of the list handed to [str.join]. *)
Inductive JoinItem : Type :=
| JStr (s : string)
| JGen (g : Generator).

Fixpoint join_from (index : nat) (sep : string) (items : list JoinItem)
  : Res string :=
  match items with
  | [] => Ok ""
  | JGen _ :: _ => Raise (JoinTypeError index)
  | JStr s :: rest =>
      match rest with
      | [] => Ok s
      | _ =>
          match join_from (S index) sep rest with
          | Ok tl => Ok (s +:+ sep +:+ tl)
          | Raise e => Raise e
          end
      end
  end.

(** [sep.join(items)] *)
Definition str_join (sep : string) (items : list JoinItem) : Res string :=
  join_from 0 sep items.

(** [os.path.join(a, b)] of [posixpath]. *)
Definition startswith_slash (s : string) : bool :=
  match s with
  | String c _ => Ascii.eqb c "/"%char
  | EmptyString => false
  end.

Fixpoint endswith_slash (s : string) : bool :=
  match s with
  | EmptyString => false
  | String c EmptyString => Ascii.eqb c "/"%char
  | String _ rest => endswith_slash rest
  end.

Definition os_path_join (a b : string) : string :=
  if startswith_slash b then b
  else if orb (String.eqb a "") (endswith_slash a) then a +:+ b
  else a +:+ "/" +:+ b.

(** The file system: regular files by path. *)
Abbreviation FS := (gmap string string).

Definition os_path_isfile (fs : FS) (fpath : string) : bool :=
  match fs !! fpath with
  | Some _ => true
  | None => false
  end.

(** ** Computations with state and exceptions *)

Definition M (S A : Type) : Type := S -> Res A * S.

Definition pure {S A} (a : A) : M S A := fun s => (Ok a, s).

Definition raise {S A} (e : PyExn) : M S A := fun s => (Raise e, s).

Definition bind {S A B} (m : M S A) (k : A -> M S B) : M S B :=
  fun s =>
    match m s with
    | (Ok a, s') => k a s'
    | (Raise e, s') => (Raise e, s')
    end.

Definition get {S} : M S S := fun s => (Ok s, s).

Definition modify {S} (f : S -> S) : M S unit := fun s => (Ok tt, f s).

Definition lift_res {S A} (r : Res A) : M S A := fun s => (r, s).

Notation "'let*' x ':=' m 'in' k" := (bind m (fun x => k))
  (at level 10, x pattern, m at level 100, k at level 200).

(** ** The XML library *)

Module etree.

#[warnings="-register-all"]
Inductive Element : Type :=
| Elem (tag : string) (attrib : list (string * string))
       (text : option string) (children : list Element).

Definition tag (e : Element) : string :=
  match e with Elem t _ _ _ => t end.
Definition attrib (e : Element) : list (string * string) :=
  match e with Elem _ a _ _ => a end.
Definition text (e : Element) : option string :=
  match e with Elem _ _ x _ => x end.
Definition children (e : Element) : list Element :=
  match e with Elem _ _ _ c => c end.

Definition with_text (x : option string) (e : Element) : Element :=
  Elem (tag e) (attrib e) x (children e).
Definition with_children (c : list Element) (e : Element) : Element :=
  Elem (tag e) (attrib e) (text e) c.
Definition append_child (c : Element) (e : Element) : Element :=
  with_children (children e ++ [c]) e.

(** Handles. *)
Definition Ref : Type := list nat.

Fixpoint deref (r : Ref) (e : Element) : option Element :=
  match r with
  | [] => Some e
  | i :: r' =>
      match children e !! i with
      | Some c => deref r' c
      | None => None
      end
  end.

Fixpoint update (r : Ref) (f : Element -> Element) (e : Element) : Element :=
  match r with
  | [] => f e
  | i :: r' => with_children (alter (update r' f) i (children e)) e
  end.

Fixpoint index_of_tag (tagname : string) (l : list Element) : option nat :=
  match l with
  | [] => None
  | c :: l' =>
      if String.eqb (tag c) tagname then Some 0
      else option_map S (index_of_tag tagname l')
  end.

Fixpoint indices_of_tag (tagname : string) (i : nat) (l : list Element)
  : list nat :=
  match l with
  | [] => []
  | c :: l' =>
      if String.eqb (tag c) tagname then i :: indices_of_tag tagname (S i) l'
      else indices_of_tag tagname (S i) l'
  end.

(** The operations of the library, on the tree as state. *)
Definition getroot : M Element Ref := pure [].

Definition element (r : Ref) : M Element Element :=
  fun t =>
    match deref r t with
    | Some e => (Ok e, t)
    | None => (Raise StaleHandle, t)
    end.

(** [parent.find(tagname)]: the first child with that tag. *)
Definition find (parent : Ref) (tagname : string) : M Element (option Ref) :=
  let* e := element parent in
  pure (option_map (fun i => parent ++ [i])
                   (index_of_tag tagname (children e))).

(** [parent.findall(tagname)]: the children with that tag, in order. *)
Definition findall (parent : Ref) (tagname : string) : M Element (list Ref) :=
  let* e := element parent in
  pure (map (fun i => parent ++ [i])
            (indices_of_tag tagname 0 (children e))).

(** [etree.SubElement(parent, tagname, attrib=attrs)] *)
Definition SubElement (parent : Ref) (tagname : string)
           (attrs : list (string * string)) : M Element Ref :=
  let* e := element parent in
  let* _ := modify (update parent (append_child (Elem tagname attrs None []))) in
  pure (parent ++ [length (children e)]).

(** [r.text = s] *)
Definition set_text (r : Ref) (s : string) : M Element unit :=
  let* _ := element r in
  modify (update r (with_text (Some s))).

(** [r.text] *)
Definition get_text (r : Ref) : M Element (option string) :=
  let* e := element r in
  pure (text e).

(** Serialization.  Characters are code points below 256; the two
    encodings differ on those from 128 on. *)
Inductive Encoding : Type := ASCII | UTF8.

Definition quote : string := String "034"%char "".

Definition encode_char (enc : Encoding) (c : ascii) : string :=
  let n := nat_of_ascii c in
  if Nat.ltb n 128 then String c ""
  else
    match enc with
    | ASCII => "&#" +:+ NilZero.string_of_uint (Nat.to_uint n) +:+ ";"
    | UTF8 => String (ascii_of_nat (192 + n / 64))
                     (String (ascii_of_nat (128 + n mod 64)) "")
    end.

Definition escape_char (in_attr : bool) (enc : Encoding) (c : ascii)
  : string :=
  if Ascii.eqb c "<"%char then "&lt;"
  else if Ascii.eqb c ">"%char then "&gt;"
  else if Ascii.eqb c "&"%char then "&amp;"
  else if Ascii.eqb c cr then "&#13;"
  else if andb in_attr (Ascii.eqb c "034"%char) then "&quot;"
  else if andb in_attr (Ascii.eqb c "010"%char) then "&#10;"
  else if andb in_attr (Ascii.eqb c "009"%char) then "&#9;"
  else encode_char enc c.

Fixpoint escape (in_attr : bool) (enc : Encoding) (s : string) : string :=
  match s with
  | EmptyString => ""
  | String c rest => escape_char in_attr enc c +:+ escape in_attr enc rest
  end.

Fixpoint dump_attrs (enc : Encoding) (attrs : list (string * string))
  : string :=
  match attrs with
  | [] => ""
  | (k, v) :: rest =>
      " " +:+ k +:+ "=" +:+ quote +:+ escape true enc v +:+ quote
      +:+ dump_attrs enc rest
  end.

Fixpoint spaces (n : nat) : string :=
  match n with
  | O => ""
  | S n' => " " +:+ spaces n'
  end.

(** Indentation stops growing at thirty levels. *)
Definition indent (level : nat) : string := spaces (2 * Nat.min level 30).

(** An element is laid out on several lines only where it was asked for
    and the element holds no text. *)
Fixpoint dump (enc : Encoding) (format : bool) (level : nat) (e : Element)
  : string :=
  match e with
  | Elem tg attrs txt kids =>
      let format' :=
        match txt with
        | Some _ => false
        | None => format
        end in
      "<" +:+ tg +:+ dump_attrs enc attrs +:+
      match txt, kids with
      | None, [] => "/>"
      | _, _ =>
          ">" +:+ (if format' then nl else "")
          +:+ match txt with
              | Some s => escape false enc s
              | None => ""
              end
          +:+ String.concat ""
                (map (fun k =>
                        (if format' then indent (S level) else "")
                        +:+ dump enc format' (S level) k
                        +:+ (if format' then nl else ""))
                     kids)
          +:+ (if format' then indent level else "")
          +:+ "</" +:+ tg +:+ ">"
      end
  end.

Definition xml_declaration : string :=
  "<?xml version='1.0' encoding='UTF-8'?>" +:+ nl.

(** [etree.tostring(tree, pretty_print=True)] *)
Definition tostring (tree : Element) : string :=
  dump ASCII true 0 tree +:+ nl.

(** The bytes [tree.write(fpath, pretty_print=True, xml_declaration=True,
    encoding='UTF-8')] puts in the file. *)
Definition write_bytes (tree : Element) : string :=
  xml_declaration +:+ dump UTF8 true 0 tree +:+ nl.

End etree.

Import etree.

(** [etree.parse(fpath, parser)]: reads the file and hands its bytes to the
    parser of the library, which is a parameter. *)
Definition etree_parse (xml_parse : string -> option Element) (fpath : string)
  : M FS Element :=
  let* fs := get in
  match fs !! fpath with
  | None => raise (IOError ("Error reading file " +:+ fpath))
  | Some bytes =>
      match xml_parse bytes with
      | Some tree => pure tree
      | None => raise XMLSyntaxError
      end
  end.

(** ** The environment of a state run *)

Record Env : Type := {
  xml_parse : string -> option Element;
    (* etree.XMLParser(remove_blank_text=True): the tree of well-formed bytes *)
  jenkins_home : string;
    (* __salt__['pillar.get']('jenkins.home') *)
  opts_test : bool
    (* __opts__['test'] *)
}.

(** The result dictionary of a state function. *)
Record ChangeResult : Type := {
  ret_changes : list (string * string);
  ret_comment : string;
  ret_name : string;
  ret_result : option bool
}.

Definition set_comment (c : string) (ret : ChangeResult) : ChangeResult :=
  {| ret_changes := ret_changes ret; ret_comment := c;
     ret_name := ret_name ret; ret_result := ret_result ret |}.

Definition set_result (r : option bool) (ret : ChangeResult) : ChangeResult :=
  {| ret_changes := ret_changes ret; ret_comment := ret_comment ret;
     ret_name := ret_name ret; ret_result := r |}.

(** What a state function can hand back: a result dictionary, or the
    function object [error_func] closed over the wrapper's [ret]. *)
Inductive Closure : Type :=
| error_func (ret : ChangeResult).

Inductive PyValue : Type :=
| VResult (ret : ChangeResult)
| VFunction (f : Closure).

(** The tree in memory and the disk, while the body of a state runs. *)
Record World : Type := {
  doc : Element;
  disk : FS
}.

Definition on_doc {A} (m : M Element A) : M World A :=
  fun w =>
    match m (doc w) with
    | (r, t) => (r, {| doc := t; disk := disk w |})
    end.

Definition on_disk {A} (m : M FS A) : M World A :=
  fun w =>
    match m (disk w) with
    | (r, fs) => (r, {| doc := doc w; disk := fs |})
    end.

(** One invocation of a state function, as seen from outside. *)
Record Run : Type := {
  outcome : Res PyValue;
  tree_after : option Element;
  disk_after : FS
}.

(** Name resolution: the names bound at module level, and the continuation
    that runs when a name is bound in the scope it is read in. *)
Definition module_globals : list string :=
  [ "difflib"; "logging"; "os"; "etree"; "wraps"; "log"; "__salt__";
    "__opts__"; "_xmlpp"; "_changes_diff"; "_find_or_add";
    "_subelement_with_text"; "_root_tag"; "_get_config"; "_parse_config";
    "_write_config"; "_insert_docker"; "_empty_result"; "_error";
    "_config_xmltree"; "dockercloud"; "_set_admin_email"; "adminemail";
    "test" ].

Definition load_name {S A} (locals : list string) (n : string) (k : M S A)
  : M S A :=
  if existsb (String.eqb n) (locals ++ module_globals) then k
  else raise (NameError n).

(** ** The module *)

Definition _xmlpp (tree : Element) : string := tostring tree.

Definition _changes_diff (before after : string) : Generator :=
  unified_diff (splitlines before) (splitlines after).

Definition _find_or_add (tagname : string) (parent : Ref) : M Element Ref :=
  let* found := find parent tagname in
  match found with
  | None => SubElement parent tagname []
  | Some r => pure r
  end.

Definition _subelement_with_text (parent : Ref) (tagname : string)
           (value : PyVal) : M Element Ref :=
  let* r := SubElement parent tagname [] in
  let* _ := set_text r (py_str value) in
  pure r.

Definition _root_tag {A} (tagname : string) (func : M Element A)
  : M Element A :=
  let* root := getroot in
  let* e := element root in
  if negb (String.eqb (tag e) tagname) then
    raise (ValueError ("root element is not the <" +:+ tagname +:+ "> tag"))
  else func.

Definition _empty_result (args : list string) : Res ChangeResult :=
  match args with
  | [name] =>
      Ok {| ret_changes := []; ret_comment := ""; ret_name := name;
            ret_result := None |}
  | _ => Raise (ArityError "_empty_result" (length args))
  end.

Definition _error (ret : ChangeResult) (msg : string) : ChangeResult :=
  set_result (Some false) (set_comment msg ret).

Definition dockercloud_tag : string :=
  "com.nirima.jenkins.plugins.docker.DockerCloud".

(** The [for dockercloud in clouds.findall(dockercloud_tag)] loop: the entry
    it breaks on, or [None] when it runs to its [else]. *)
Fixpoint _insert_docker_loop (candidates : list Ref) : M Element (option Ref) :=
  match candidates with
  | [] => pure None
  | dockercloud :: rest =>
      let* nametag := find dockercloud "name" in
      match nametag with
      | None => _insert_docker_loop rest
      | Some nt =>
          let* txt := get_text nt in
          match txt with
          | Some s =>
              if String.eqb s "name" then pure (Some dockercloud)
              else _insert_docker_loop rest
          | None => _insert_docker_loop rest
          end
      end
  end.

(** The field elements put on the entry, in order. *)
Definition _insert_docker_fields (dockercloud : Ref)
           (name server_url connect_timeout read_timeout capacity : PyVal)
  : M Element unit :=
  let* _ := _subelement_with_text dockercloud "name" name in
  let* _ := SubElement dockercloud "templates" [("class", "empty-list")] in
  let* _ := _subelement_with_text dockercloud "serverUrl" server_url in
  let* _ := _subelement_with_text dockercloud "connectTimeout" connect_timeout in
  let* _ := _subelement_with_text dockercloud "readTimeout" read_timeout in
  let* _ := SubElement dockercloud "credentialsId" [] in
  let* _ := _subelement_with_text dockercloud "containerCap" capacity in
  pure tt.

Definition _insert_docker_func (name : PyVal) (version : string)
           (server_url connect_timeout read_timeout capacity : PyVal)
  : M Element unit :=
  let* hudson := getroot in
  let* clouds := _find_or_add "clouds" hudson in
  let* candidates := findall clouds dockercloud_tag in
  let* found := _insert_docker_loop candidates in
  let* dockercloud :=
    match found with
    | Some r => pure r
    | None =>
        SubElement clouds dockercloud_tag
                   [("plugin", "docker-plugin@" +:+ version)]
    end in
  _insert_docker_fields dockercloud name server_url connect_timeout
                        read_timeout capacity.

Definition _insert_docker (name : PyVal) (version : string)
           (server_url connect_timeout read_timeout capacity : PyVal)
  : M Element unit :=
  _root_tag "hudson"
    (_insert_docker_func name version server_url connect_timeout read_timeout
                         capacity).

Definition admin_root_tag : string :=
  "jenkins.model.JenkinsLocationConfiguration".

Definition _set_admin_email_func (emailaddress : string) : M Element unit :=
  let* root := getroot in
  let* email := _find_or_add "adminAddress" root in
  set_text email emailaddress.

Definition _set_admin_email (emailaddress : string) : M Element unit :=
  _root_tag admin_root_tag (_set_admin_email_func emailaddress).

(** The arguments of [dockercloud] other than [name] and [conffile];
    [server_url] has no default, the others default to 0, 0 and 100. *)
Record DockerArgs : Type := {
  server_url : PyVal;
  connect_timeout : option PyVal;
  read_timeout : option PyVal;
  capacity : option PyVal
}.

Definition dockercloud_locals : list string :=
  [ "name"; "server_url"; "connect_timeout"; "read_timeout"; "capacity";
    "conffile"; "_tree"; "version"; "ret"; "before"; "after"; "changes";
    "comment" ].

Section States.

Variable env : Env.

Definition _get_config (fname : string) : M FS string :=
  let fpath := os_path_join (jenkins_home env) fname in
  let* fs := get in
  if negb (os_path_isfile fs fpath) then
    raise (IOError (fname +:+ " not found in jenkins home directory "
                          +:+ jenkins_home env))
  else pure fpath.

Definition _parse_config (fname : string) : M FS Element :=
  let* fpath := _get_config fname in
  etree_parse (xml_parse env) fpath.

Definition _write_config (fname : string) (tree : Element) : M FS unit :=
  let* fpath := _get_config fname in
  modify (insert fpath (write_bytes tree)).

(** The wrapper [_config_xmltree] puts around a state function.  [conffile]
    is the entry of that name in [kwargs], if there is one. *)
Definition _config_xmltree (func : string -> string -> M World PyValue)
           (name : string) (conffile : option string) (fs : FS) : Run :=
  match conffile with
  | None =>
      {| outcome := Raise (KeyError "conffile"); tree_after := None;
         disk_after := fs |}
  | Some fname =>
      match _empty_result [name] with
      | Raise e => {| outcome := Raise e; tree_after := None; disk_after := fs |}
      | Ok ret =>
          match _parse_config fname fs with
          | (Raise _, fs') =>
              {| outcome := Ok (VFunction (error_func ret));
                 tree_after := None; disk_after := fs' |}
          | (Ok tree, fs') =>
              match func name fname {| doc := tree; disk := fs' |} with
              | (r, w) =>
                  {| outcome := r; tree_after := Some (doc w);
                     disk_after := disk w |}
              end
          end
      end
  end.

(** The body of [dockercloud].  In the last branch [tree] is read where the
    parameter is called [_tree]; the continuation is what the remaining
    statements do with the tree in memory. *)
Definition dockercloud_func (args : DockerArgs) (name conffile : string)
  : M World PyValue :=
  let version := "0.15.0" in
  let* ret := lift_res (_empty_result [name]) in
  let* before := on_doc (let* t := get in pure (tostring t)) in
  let* _ := on_doc (_insert_docker (PStr name) version (server_url args)
                      (default (PInt 0) (connect_timeout args))
                      (default (PInt 0) (read_timeout args))
                      (default (PInt 100) (capacity args))) in
  let* after := on_doc (let* t := get in pure (tostring t)) in
  let changes := _changes_diff before after in
  let comment := "updated configuration file " +:+ conffile in
  if opts_test env then
    let* c := lift_res (str_join nl [JStr ("would " +:+ comment);
                                     JStr "diff"; JGen changes]) in
    pure (VResult (set_result None (set_comment c ret)))
  else
    load_name dockercloud_locals "tree"
      (let* w := get in
       let* _ := on_disk (_write_config conffile (doc w)) in
       let* c := lift_res (str_join nl [JStr comment; JStr "diff";
                                        JGen changes]) in
       pure (VResult (set_result (Some true) (set_comment c ret)))).

Definition dockercloud (name : string) (args : DockerArgs)
           (conffile : option string) (fs : FS) : Run :=
  _config_xmltree (dockercloud_func args) name conffile fs.

Definition adminemail_func (name conffile : string) : M World PyValue :=
  let* ret := lift_res (_empty_result []) in
  let comment := "set admin email to " +:+ name in
  let* before := on_doc (let* t := get in pure (_xmlpp t)) in
  let* _ := on_doc (_set_admin_email name) in
  let* after := on_doc (let* t := get in pure (_xmlpp t)) in
  let changes := _changes_diff before after in
  if opts_test env then
    let* c := lift_res (str_join nl [JStr ("would " +:+ comment);
                                     JStr "diff"; JGen changes]) in
    pure (VResult (set_comment c ret))
  else
    let* c := lift_res (str_join nl [JStr comment; JStr "diff";
                                     JGen changes]) in
    pure (VResult (set_result (Some true) (set_comment c ret))).

Definition adminemail (name : string) (conffile : option string) (fs : FS)
  : Run :=
  _config_xmltree adminemail_func name conffile fs.

End States.

(** ** Notions the properties are stated with *)

Definition first_with_tag (tagname : string) (l : list Element)
  : option Element :=
  List.find (fun c => String.eqb (tag c) tagname) l.

Definition children_with_tag (tagname : string) (e : Element) : list Element :=
  List.filter (fun c => String.eqb (tag c) tagname) (children e).

Definition append_children (cs : list Element) (e : Element) : Element :=
  with_children (children e ++ cs) e.

(** The seven elements the field population appends. *)
Definition docker_fields
           (name server_url connect_timeout read_timeout capacity : PyVal)
  : list Element :=
  [ Elem "name" [] (Some (py_str name)) [];
    Elem "templates" [("class", "empty-list")] None [];
    Elem "serverUrl" [] (Some (py_str server_url)) [];
    Elem "connectTimeout" [] (Some (py_str connect_timeout)) [];
    Elem "readTimeout" [] (Some (py_str read_timeout)) [];
    Elem "credentialsId" [] None [];
    Elem "containerCap" [] (Some (py_str capacity)) [] ].

(** The cloud entries of a document: the children with the cloud tag of the
    first [clouds] child of the root. *)
Definition cloud_entries (t : Element) : list Element :=
  match first_with_tag "clouds" (children t) with
  | Some clouds => children_with_tag dockercloud_tag clouds
  | None => []
  end.

(** The text of the first [name] child of an entry. *)
Definition entry_name (entry : Element) : option string :=
  match first_with_tag "name" (children entry) with
  | Some nt => text nt
  | None => None
  end.

(** The test the loop of [_insert_docker] applies to an entry. *)
Definition entry_matches (entry : Element) : bool :=
  match entry_name entry with
  | Some s => String.eqb s "name"
  | None => false
  end.

Fixpoint matching_entry (candidates : list nat) (kids : list Element)
  : option nat :=
  match candidates with
  | [] => None
  | i :: rest =>
      match kids !! i with
      | Some entry =>
          if entry_matches entry then Some i else matching_entry rest kids
      | None => matching_entry rest kids
      end
  end.

(** The tree [_find_or_add] leaves behind at the root, and the index of the
    child it returns. *)
Definition ensure_child (tagname : string) (t : Element) : nat * Element :=
  match index_of_tag tagname (children t) with
  | Some i => (i, t)
  | None => (length (children t), append_child (Elem tagname [] None []) t)
  end.

(** The tree [_insert_docker] leaves behind when the root tag is right. *)
Definition insert_docker_tree (name : PyVal) (version : string)
           (server_url connect_timeout read_timeout capacity : PyVal)
           (t : Element) : Element :=
  let fields :=
    docker_fields name server_url connect_timeout read_timeout capacity in
  match ensure_child "clouds" t with
  | (ci, t1) =>
      match children t1 !! ci with
      | None => t1
      | Some clouds =>
          match matching_entry
                  (indices_of_tag dockercloud_tag 0 (children clouds))
                  (children clouds) with
          | Some i => update [ci; i] (append_children fields) t1
          | None =>
              update [ci]
                     (append_child
                        (Elem dockercloud_tag
                              [("plugin", "docker-plugin@" +:+ version)]
                              None fields))
                     t1
          end
      end
  end.

(** The tree [_set_admin_email] leaves behind when the root tag is right. *)
Definition set_admin_email_tree (emailaddress : string) (t : Element)
  : Element :=
  match index_of_tag "adminAddress" (children t) with
  | Some i => update [i] (with_text (Some emailaddress)) t
  | None => append_child (Elem "adminAddress" [] (Some emailaddress) []) t
  end.

Definition admin_addresses (t : Element) : list Element :=
  children_with_tag "adminAddress" t.

Definition exactly_one_admin_address (emailaddress : string) (t : Element)
  : Prop :=
  exists x, admin_addresses t = [x] /\ text x = Some emailaddress.

(** The dictionary [_empty_result(name)] builds. *)
Definition empty_result_of (name : string) : ChangeResult :=
  {| ret_changes := []; ret_comment := ""; ret_name := name;
     ret_result := None |}.

(** Whether an invocation handed back a result dictionary. *)
Definition returns_change_result (r : Run) : bool :=
  match outcome r with
  | Ok (VResult _) => true
  | _ => false
  end.

(** Documents all of whose strings are ASCII. *)
Fixpoint ascii_string (s : string) : bool :=
  match s with
  | EmptyString => true
  | String c rest => andb (Nat.ltb (nat_of_ascii c) 128) (ascii_string rest)
  end.

Fixpoint ascii_only (e : Element) : bool :=
  match e with
  | Elem tg attrs txt kids =>
      andb (ascii_string tg)
        (andb (forallb (fun kv => andb (ascii_string (fst kv))
                                       (ascii_string (snd kv))) attrs)
           (andb match txt with
                 | Some s => ascii_string s
                 | None => true
                 end
                 (forallb ascii_only kids)))
  end.

(** The number of elements of a document. *)
Fixpoint element_count (e : Element) : nat :=
  match e with
  | Elem _ _ _ kids => S (list_sum (map element_count kids))
  end.

(** An element as it is found again after a mutation that only appends: the
    same tag, attributes and text, and no fewer children. *)
Definition same_node (e e' : Element) : Prop :=
  tag e' = tag e /\ attrib e' = attrib e /\ text e' = text e
  /\ length (children e) <= length (children e').

(** The children of an element that do not carry a tag. *)
Definition children_without_tag (tagname : string) (e : Element)
  : list Element :=
  List.filter (fun c => negb (String.eqb (tag c) tagname)) (children e).

(** ** Sample documents, disks and environments *)

Definition hudson_empty : Element := Elem "hudson" [] None [].

Definition project_doc : Element := Elem "project" [] None [].

Definition cloud_named (s : string) : Element :=
  Elem dockercloud_tag [("plugin", "docker-plugin@0.15.0")] None
       [Elem "name" [] (Some s) []].

Definition hudson_with_cloud (s : string) : Element :=
  Elem "hudson" [] None [Elem "clouds" [] None [cloud_named s]].

Definition admin_empty : Element := Elem admin_root_tag [] None [].

Definition admin_two_addresses : Element :=
  Elem admin_root_tag [] None
       [Elem "adminAddress" [] (Some "old@example.com") [];
        Elem "adminAddress" [] (Some "other@example.com") []].

Definition latin1_doc : Element :=
  Elem "hudson" [] None
       [Elem "label" [] (Some (String (ascii_of_nat 233) "")) []].

(** A parser for the samples: it recognises the files [tree.write] produces
    for the given documents and rejects every other content. *)
Definition parse_among (docs : list Element) (bytes : string)
  : option Element :=
  List.find (fun t => String.eqb (write_bytes t) bytes) docs.

Definition sample_env (test : bool) : Env :=
  {| xml_parse :=
       parse_among [hudson_empty; project_doc; admin_empty;
                    hudson_with_cloud "name"];
     jenkins_home := "/var/lib/jenkins";
     opts_test := test |}.

Definition admin_conffile : string :=
  "jenkins.model.JenkinsLocationConfiguration.xml".

Definition sample_disk : FS :=
  {[ "/var/lib/jenkins/config.xml" := write_bytes hudson_empty;
     "/var/lib/jenkins/job.xml" := write_bytes project_doc;
     "/var/lib/jenkins/broken.xml" := "<hudson>";
     "/var/lib/jenkins/clouds.xml" := write_bytes (hudson_with_cloud "name");
     "/var/lib/jenkins/jenkins.model.JenkinsLocationConfiguration.xml" :=
       write_bytes admin_empty ]}.

Definition sample_args : DockerArgs :=
  {| server_url := PStr "http://d:2376"; connect_timeout := None;
     read_timeout := None; capacity := None |}.

(** * Properties *)

(** ** Handles and updates *)

Lemma deref_update_eq (r : Ref) (f : Element -> Element) :
  forall t e, deref r t = Some e -> deref r (update r f t) = Some (f e).
Proof.
  induction r as [|i r IH]; intros t e H; simpl in *.
  - congruence.
  - destruct (children t !! i) as [c|] eqn:Hc; [|discriminate].
    rewrite list_lookup_alter_eq, Hc. simpl. auto.
Qed.

Lemma deref_app (r : Ref) (i : nat) :
  forall t, deref (r ++ [i]) t =
            match deref r t with
            | Some e => children e !! i
            | None => None
            end.
Proof.
  induction r as [|j r IH]; intros t; simpl.
  - destruct (children t !! i); reflexivity.
  - destruct (children t !! j); auto.
Qed.

Lemma update_ext (r : Ref) (f g : Element -> Element) :
  forall t e, deref r t = Some e -> f e = g e -> update r f t = update r g t.
Proof.
  induction r as [|i r IH]; intros t e H Hfg; simpl in *.
  - congruence.
  - destruct (children t !! i) as [c|] eqn:Hc; [|discriminate].
    f_equal. apply list_alter_ext; [|reflexivity].
    intros x Hx. rewrite Hc in Hx. inversion Hx; subst. eauto.
Qed.

Lemma update_update (r : Ref) (f g : Element -> Element) :
  forall t, update r g (update r f t) = update r (fun e => g (f e)) t.
Proof.
  induction r as [|i r IH]; intros t; simpl.
  - reflexivity.
  - destruct t as [tg a x c]. unfold with_children; simpl. f_equal.
    rewrite list_alter_alter_eq.
    apply list_alter_ext; [|reflexivity]. intros y _. apply IH.
Qed.

Lemma update_app (r : Ref) (i : nat) (f : Element -> Element) :
  forall t, update (r ++ [i]) f t =
            update r (fun e => with_children (alter f i (children e)) e) t.
Proof.
  induction r as [|j r IH]; intros t; simpl.
  - reflexivity.
  - f_equal. apply list_alter_ext; [|reflexivity]. intros x _. apply IH.
Qed.

(** ** The element primitives *)

Lemma SubElement_run (parent : Ref) (tagname : string) attrs t e :
  deref parent t = Some e ->
  SubElement parent tagname attrs t =
    (Ok (parent ++ [length (children e)]),
     update parent (append_child (Elem tagname attrs None [])) t).
Proof.
  intros H. unfold SubElement, bind, element, modify, pure. rewrite H.
  reflexivity.
Qed.

Lemma append_then_alter (f : Element -> Element) (child e : Element) :
  with_children
    (alter f (length (children e)) (children (append_child child e)))
    (append_child child e)
  = append_child (f child) e.
Proof.
  destruct e as [tg a x c]. unfold append_child, with_children; simpl.
  f_equal.
  replace (length c) with (length c + 0) by lia.
  rewrite alter_app_r. reflexivity.
Qed.

Lemma subelement_with_text_run (parent : Ref) (tagname : string) value t e :
  deref parent t = Some e ->
  _subelement_with_text parent tagname value t =
    (Ok (parent ++ [length (children e)]),
     update parent
            (append_child (Elem tagname [] (Some (py_str value)) [])) t).
Proof.
  intros H. unfold _subelement_with_text, bind.
  rewrite (SubElement_run _ _ _ _ _ H).
  unfold set_text, bind, element, modify, pure.
  rewrite deref_app, (deref_update_eq _ _ _ _ H).
  unfold append_child at 1, with_children at 1. simpl.
  rewrite lookup_app_r by lia. rewrite Nat.sub_diag. simpl.
  rewrite update_app, update_update.
  f_equal. apply update_ext with (e := e); [assumption|].
  exact (append_then_alter (with_text (Some (py_str value)))
                           (Elem tagname [] None []) e).
Qed.

Lemma append_child_children (c : Element) (cs : list Element) (e : Element) :
  append_child c (append_children cs e) = append_children (cs ++ [c]) e.
Proof.
  destruct e as [tg a x k]. unfold append_child, append_children, with_children.
  simpl. rewrite <- app_assoc. reflexivity.
Qed.

(** Appending to an entry that has already received [cs]. *)
Lemma SubElement_after (parent : Ref) (tagname : string) attrs cs t e :
  deref parent t = Some e ->
  SubElement parent tagname attrs (update parent (append_children cs) t) =
    (Ok (parent ++ [length (children e ++ cs)]),
     update parent (append_children (cs ++ [Elem tagname attrs None []])) t).
Proof.
  intros H.
  rewrite (SubElement_run _ _ _ _ _ (deref_update_eq _ _ _ _ H)).
  rewrite update_update. f_equal.
  apply update_ext with (e := e); [assumption|].
  apply append_child_children.
Qed.

Lemma subelement_with_text_after (parent : Ref) (tagname : string) value cs
      t e :
  deref parent t = Some e ->
  _subelement_with_text parent tagname value
                        (update parent (append_children cs) t) =
    (Ok (parent ++ [length (children e ++ cs)]),
     update parent
            (append_children
               (cs ++ [Elem tagname [] (Some (py_str value)) []])) t).
Proof.
  intros H.
  rewrite (subelement_with_text_run _ _ _ _ _ (deref_update_eq _ _ _ _ H)).
  rewrite update_update. f_equal.
  apply update_ext with (e := e); [assumption|].
  apply append_child_children.
Qed.

Lemma insert_docker_fields_run (entry : Ref) name server_url connect_timeout
      read_timeout capacity t e :
  deref entry t = Some e ->
  _insert_docker_fields entry name server_url connect_timeout read_timeout
                        capacity t =
    (Ok tt,
     update entry
            (append_children
               (docker_fields name server_url connect_timeout read_timeout
                              capacity)) t).
Proof.
  intros H. unfold _insert_docker_fields, bind.
  rewrite (subelement_with_text_run _ _ _ _ _ H).
  change (append_child ?c) with (append_children [c]).
  rewrite (SubElement_after _ _ _ _ _ _ H).
  rewrite (subelement_with_text_after _ _ _ _ _ _ H).
  rewrite (subelement_with_text_after _ _ _ _ _ _ H).
  rewrite (subelement_with_text_after _ _ _ _ _ _ H).
  rewrite (SubElement_after _ _ _ _ _ _ H).
  rewrite (subelement_with_text_after _ _ _ _ _ _ H).
  reflexivity.
Qed.

Lemma append_children_twice (cs cs' : list Element) (e : Element) :
  append_children cs' (append_children cs e) = append_children (cs ++ cs') e.
Proof.
  destruct e as [tg a x k]. unfold append_children, with_children. simpl.
  rewrite <- app_assoc. reflexivity.
Qed.

Lemma update_append_twice (r : Ref) (cs cs' : list Element) t e :
  deref r t = Some e ->
  update r (append_children cs') (update r (append_children cs) t) =
  update r (append_children (cs ++ cs')) t.
Proof.
  intros H. rewrite update_update.
  apply update_ext with (e := e); [assumption|].
  apply append_children_twice.
Qed.

(** C4: [_subelement_with_text] (appendChildWithText) is not idempotent.  On
    any live parent element, one call appends exactly one new child with the
    given tag and the text [str(value)] and changes nothing else; a second
    call appends a second, equal sibling next to it; and so running the field
    population of [_insert_docker] twice on the same entry leaves two copies
    of each of the seven field elements. *)
Theorem subelement_with_text_appends_every_time
        (t : Element) (parent : Ref) (e : Element) (tagname : string)
        (value name server_url connect_timeout read_timeout capacity : PyVal) :
  deref parent t = Some e ->
  let child := Elem tagname [] (Some (py_str value)) [] in
  let fields :=
    docker_fields name server_url connect_timeout read_timeout capacity in
  let t1 := update parent (append_children [child]) t in
  let t2 := update parent (append_children [child; child]) t in
  let t3 := update parent (append_children fields) t in
  let t4 := update parent (append_children (fields ++ fields)) t in
  _subelement_with_text parent tagname value t =
    (Ok (parent ++ [length (children e)]), t1)
  /\ deref parent t1 = Some (append_children [child] e)
  /\ deref (parent ++ [length (children e)]) t1 = Some child
  /\ _subelement_with_text parent tagname value t1 =
       (Ok (parent ++ [S (length (children e))]), t2)
  /\ deref parent t2 = Some (append_children [child; child] e)
  /\ children (append_children [child; child] e) =
       children e ++ [child; child]
  /\ _insert_docker_fields parent name server_url connect_timeout
                           read_timeout capacity t = (Ok tt, t3)
  /\ _insert_docker_fields parent name server_url connect_timeout
                           read_timeout capacity t3 = (Ok tt, t4)
  /\ deref parent t4 = Some (append_children (fields ++ fields) e).
Proof.
  intros H child fields t1 t2 t3 t4.
  assert (H1 : deref parent t1 = Some (append_children [child] e))
    by (apply deref_update_eq; assumption).
  assert (H3 : deref parent t3 = Some (append_children fields e))
    by (apply deref_update_eq; assumption).
  split; [apply subelement_with_text_run; assumption|].
  split; [exact H1|].
  split.
  { rewrite deref_app, H1. simpl.
    rewrite lookup_app_r by lia. rewrite Nat.sub_diag. reflexivity. }
  split.
  { unfold t1, t2.
    rewrite (subelement_with_text_after _ _ _ _ _ _ H).
    rewrite length_app, Nat.add_comm. reflexivity. }
  split; [exact (deref_update_eq _ _ _ _ H)|].
  split; [reflexivity|].
  split; [exact (insert_docker_fields_run _ _ _ _ _ _ _ _ H)|].
  split; [|exact (deref_update_eq _ _ _ _ H)].
  rewrite (insert_docker_fields_run _ _ _ _ _ _ _ _ H3).
  unfold t3, t4. rewrite (update_append_twice _ _ _ _ _ H). reflexivity.
Qed.

Lemma subelement_with_text_appends_every_time_witness :
  deref [0; 0] (hudson_with_cloud "build1") = Some (cloud_named "build1")
  /\ _subelement_with_text [0; 0] "serverUrl" (PStr "http://d:2376")
       (hudson_with_cloud "build1")
     = (Ok [0; 0; 1],
        update [0; 0]
               (append_children
                  [Elem "serverUrl" [] (Some "http://d:2376") []])
               (hudson_with_cloud "build1")).
Proof.
  split; [reflexivity|].
  apply (subelement_with_text_appends_every_time
           (hudson_with_cloud "build1") [0; 0] (cloud_named "build1")
           "serverUrl" (PStr "http://d:2376") (PStr "build1")
           (PStr "http://d:2376") (PInt 0) (PInt 0) (PInt 100)).
  reflexivity.
Defined.

(** ** Searching the children of an element *)

Lemma index_of_tag_Some (tagname : string) :
  forall l i, index_of_tag tagname l = Some i ->
              exists c, l !! i = Some c /\ first_with_tag tagname l = Some c
                        /\ tag c = tagname.
Proof.
  induction l as [|c l IH]; intros i H; simpl in *; [discriminate|].
  unfold first_with_tag; simpl.
  destruct (String.eqb (tag c) tagname) eqn:E.
  - inversion H; subst. exists c. apply String.eqb_eq in E. auto.
  - destruct (index_of_tag tagname l) as [j|]; [|discriminate].
    inversion H; subst. simpl. apply (IH j). reflexivity.
Qed.

Lemma index_of_tag_None (tagname : string) :
  forall l, index_of_tag tagname l = None ->
            first_with_tag tagname l = None
            /\ List.filter (fun c => String.eqb (tag c) tagname) l = [].
Proof.
  induction l as [|c l IH]; intros H; simpl in *; [auto|].
  unfold first_with_tag; simpl.
  destruct (String.eqb (tag c) tagname) eqn:E; [discriminate|].
  destruct (index_of_tag tagname l); [discriminate|]. apply IH. reflexivity.
Qed.

Lemma indices_of_tag_valid (tagname : string) :
  forall l base i,
    i ∈ indices_of_tag tagname base l ->
    base <= i /\ is_Some (l !! (i - base)).
Proof.
  induction l as [|c l IH]; intros base i H; simpl in *.
  - inversion H.
  - assert (Hrec : i ∈ indices_of_tag tagname (S base) l ->
                   base <= i /\ is_Some ((c :: l) !! (i - base))).
    { intros Hi. destruct (IH _ _ Hi) as [Hle Hs]. split; [lia|].
      replace (i - base) with (S (i - S base)) by lia. exact Hs. }
    destruct (String.eqb (tag c) tagname); [|auto].
    apply elem_of_cons in H as [->|H]; [|auto].
    split; [lia|]. rewrite Nat.sub_diag. simpl. eauto.
Qed.

Lemma find_run (parent : Ref) (tagname : string) t e :
  deref parent t = Some e ->
  find parent tagname t =
    (Ok (option_map (fun i => parent ++ [i])
                    (index_of_tag tagname (children e))), t).
Proof.
  intros H. unfold find, bind, element, pure. rewrite H. reflexivity.
Qed.

Lemma findall_run (parent : Ref) (tagname : string) t e :
  deref parent t = Some e ->
  findall parent tagname t =
    (Ok (map (fun i => parent ++ [i])
             (indices_of_tag tagname 0 (children e))), t).
Proof.
  intros H. unfold findall, bind, element, pure. rewrite H. reflexivity.
Qed.

Lemma get_text_run (r : Ref) t e :
  deref r t = Some e -> get_text r t = (Ok (text e), t).
Proof.
  intros H. unfold get_text, bind, element, pure. rewrite H. reflexivity.
Qed.

(** The loop is the search [matching_entry] performs, and leaves the tree
    alone. *)
Lemma insert_docker_loop_run (clouds : Ref) t ce :
  deref clouds t = Some ce ->
  forall candidates,
    Forall (fun i => is_Some (children ce !! i)) candidates ->
    _insert_docker_loop (map (fun i => clouds ++ [i]) candidates) t =
      (Ok (option_map (fun i => clouds ++ [i])
                      (matching_entry candidates (children ce))), t).
Proof.
  intros H. induction candidates as [|i rest IH]; intros Hall; simpl.
  - reflexivity.
  - inversion Hall as [|? ? [entry Hentry] Hrest]; subst.
    assert (Hd : deref (clouds ++ [i]) t = Some entry)
      by (rewrite deref_app, H; exact Hentry).
    unfold bind. rewrite (find_run _ _ _ _ Hd), Hentry.
    unfold entry_matches, entry_name.
    destruct (index_of_tag "name" (children entry)) as [j|] eqn:Hj; simpl.
    + destruct (index_of_tag_Some _ _ _ Hj) as (nt & Hnt & Hfirst & _).
      assert (Hn : deref ((clouds ++ [i]) ++ [j]) t = Some nt)
        by (rewrite deref_app, Hd; exact Hnt).
      rewrite (get_text_run _ _ _ Hn), Hfirst.
      destruct (text nt) as [s|]; [|apply IH; assumption].
      destruct (String.eqb s "name"); [reflexivity|apply IH; assumption].
    + destruct (index_of_tag_None _ _ Hj) as [Hfirst _]. rewrite Hfirst.
      apply IH; assumption.
Qed.

Lemma ensure_child_lookup (tagname : string) (t : Element) :
  exists c, children (snd (ensure_child tagname t))
              !! fst (ensure_child tagname t) = Some c
            /\ tag c = tagname.
Proof.
  unfold ensure_child.
  destruct (index_of_tag tagname (children t)) as [i|] eqn:Hi; simpl.
  - destruct (index_of_tag_Some _ _ _ Hi) as (c & Hc & _ & Htag). eauto.
  - exists (Elem tagname [] None []).
    rewrite lookup_app_r by lia. rewrite Nat.sub_diag. auto.
Qed.

Lemma find_or_add_root_run (tagname : string) (t : Element) :
  _find_or_add tagname [] t =
    (Ok [fst (ensure_child tagname t)], snd (ensure_child tagname t)).
Proof.
  unfold _find_or_add, bind.
  rewrite (find_run [] tagname t t eq_refl). unfold ensure_child.
  destruct (index_of_tag tagname (children t)) as [i|]; simpl.
  - reflexivity.
  - rewrite (SubElement_run [] tagname [] t t eq_refl). reflexivity.
Qed.

Lemma matching_entry_Some (candidates : list nat) (kids : list Element) i :
  matching_entry candidates kids = Some i ->
  exists entry, kids !! i = Some entry /\ entry_matches entry = true.
Proof.
  induction candidates as [|j rest IH]; simpl; [discriminate|].
  destruct (kids !! j) as [entry|] eqn:Hj; [|exact IH].
  destruct (entry_matches entry) eqn:Hm; [|exact IH].
  intros Heq. inversion Heq; subst. eauto.
Qed.

Lemma root_tag_pass {A} (tagname : string) (func : M Element A) t :
  tag t = tagname -> _root_tag tagname func t = func t.
Proof.
  intros H. unfold _root_tag, bind, getroot, element, pure. simpl.
  rewrite H, String.eqb_refl. reflexivity.
Qed.

Lemma root_tag_fail {A} (tagname : string) (func : M Element A) t :
  tag t <> tagname ->
  _root_tag tagname func t =
    (Raise (ValueError ("root element is not the <" +:+ tagname +:+ "> tag")),
     t).
Proof.
  intros H. unfold _root_tag, bind, getroot, element, pure. simpl.
  destruct (String.eqb (tag t) tagname) eqn:E.
  - apply String.eqb_eq in E. contradiction.
  - reflexivity.
Qed.

(** Whatever the tree under a [hudson] root, [_insert_docker_func] returns
    normally, with the tree [insert_docker_tree] describes. *)
Lemma insert_docker_func_run name version server_url connect_timeout
      read_timeout capacity t :
  _insert_docker_func name version server_url connect_timeout read_timeout
                      capacity t =
    (Ok tt,
     insert_docker_tree name version server_url connect_timeout read_timeout
                        capacity t).
Proof.
  unfold _insert_docker_func, insert_docker_tree, bind, getroot, pure.
  rewrite find_or_add_root_run.
  destruct (ensure_child_lookup "clouds" t) as (clouds & Hc & _).
  destruct (ensure_child "clouds" t) as [ci t1]. simpl in Hc. rewrite Hc.
  assert (Hd : deref [ci] t1 = Some clouds) by (simpl; rewrite Hc; reflexivity).
  rewrite (findall_run _ _ _ _ Hd).
  rewrite (insert_docker_loop_run _ _ _ Hd).
  2:{ apply Forall_forall. intros i Hi.
      destruct (indices_of_tag_valid _ _ _ _ Hi) as [_ Hs].
      rewrite Nat.sub_0_r in Hs. exact Hs. }
  destruct (matching_entry _ (children clouds)) as [i|] eqn:Hm;
    cbn [option_map].
  - destruct (matching_entry_Some _ _ _ Hm) as (entry & He & _).
    apply insert_docker_fields_run with (e := entry).
    simpl. rewrite Hc. simpl. rewrite He. reflexivity.
  - rewrite (SubElement_run _ _ _ _ _ Hd).
    set (new := Elem dockercloud_tag _ None []).
    rewrite (insert_docker_fields_run _ _ _ _ _ _ _ new).
    2:{ rewrite deref_app, (deref_update_eq _ _ _ _ Hd). simpl.
        rewrite lookup_app_r by lia. rewrite Nat.sub_diag. reflexivity. }
    rewrite update_app, update_update. f_equal.
    apply update_ext with (e := clouds); [assumption|].
    exact (append_then_alter
             (append_children
                (docker_fields name server_url connect_timeout read_timeout
                               capacity)) new clouds).
Qed.

Lemma insert_docker_run name version server_url connect_timeout read_timeout
      capacity t :
  tag t = "hudson" ->
  _insert_docker name version server_url connect_timeout read_timeout
                 capacity t =
    (Ok tt,
     insert_docker_tree name version server_url connect_timeout read_timeout
                        capacity t).
Proof.
  intros H. unfold _insert_docker. rewrite (root_tag_pass _ _ _ H).
  apply insert_docker_func_run.
Qed.

(** ** Loading the configuration file *)

Section Loading.

Variable env : Env.

Lemma get_config_run (fname : string) (fs : FS) :
  _get_config env fname fs =
    (if os_path_isfile fs (os_path_join (jenkins_home env) fname)
     then Ok (os_path_join (jenkins_home env) fname)
     else Raise (IOError (fname +:+ " not found in jenkins home directory "
                                +:+ jenkins_home env)),
     fs).
Proof.
  unfold _get_config, bind, get, raise, pure.
  destruct (os_path_isfile fs _); reflexivity.
Qed.

Lemma parse_config_absent (fname : string) (fs : FS) :
  fs !! os_path_join (jenkins_home env) fname = None ->
  _parse_config env fname fs =
    (Raise (IOError (fname +:+ " not found in jenkins home directory "
                           +:+ jenkins_home env)), fs).
Proof.
  intros H. unfold _parse_config, bind. rewrite get_config_run.
  unfold os_path_isfile. rewrite H. reflexivity.
Qed.

Lemma parse_config_malformed (fname : string) (fs : FS) (bytes : string) :
  fs !! os_path_join (jenkins_home env) fname = Some bytes ->
  xml_parse env bytes = None ->
  _parse_config env fname fs = (Raise XMLSyntaxError, fs).
Proof.
  intros H Hp. unfold _parse_config, bind. rewrite get_config_run.
  unfold os_path_isfile. rewrite H.
  unfold etree_parse, bind, get. rewrite H, Hp. reflexivity.
Qed.

Lemma parse_config_wellformed (fname : string) (fs : FS) (bytes : string)
      (tree : Element) :
  fs !! os_path_join (jenkins_home env) fname = Some bytes ->
  xml_parse env bytes = Some tree ->
  _parse_config env fname fs = (Ok tree, fs).
Proof.
  intros H Hp. unfold _parse_config, bind. rewrite get_config_run.
  unfold os_path_isfile. rewrite H.
  unfold etree_parse, bind, get. rewrite H, Hp. reflexivity.
Qed.

(** Loading never writes. *)
Lemma parse_config_disk (fname : string) (fs : FS) :
  snd (_parse_config env fname fs) = fs.
Proof.
  destruct (fs !! os_path_join (jenkins_home env) fname) as [bytes|] eqn:H.
  - destruct (xml_parse env bytes) as [tree|] eqn:Hp.
    + rewrite (parse_config_wellformed _ _ _ _ H Hp). reflexivity.
    + rewrite (parse_config_malformed _ _ _ H Hp). reflexivity.
  - rewrite (parse_config_absent _ _ H). reflexivity.
Qed.

Lemma parse_config_Ok (fname : string) (fs : FS) (tree : Element) :
  fst (_parse_config env fname fs) = Ok tree ->
  _parse_config env fname fs = (Ok tree, fs).
Proof.
  intros H. rewrite <- (parse_config_disk fname fs) at 2. rewrite <- H.
  destruct (_parse_config env fname fs). reflexivity.
Qed.

Lemma parse_config_Raise (fname : string) (fs : FS) (e : PyExn) :
  fst (_parse_config env fname fs) = Raise e ->
  _parse_config env fname fs = (Raise e, fs).
Proof.
  intros H. rewrite <- (parse_config_disk fname fs) at 2. rewrite <- H.
  destruct (_parse_config env fname fs). reflexivity.
Qed.

(** ** The bodies of the two states *)

Lemma dockercloud_func_hudson (args : DockerArgs) (name conffile : string)
      (w : World) :
  tag (doc w) = "hudson" ->
  dockercloud_func env args name conffile w =
    (Raise (if opts_test env then JoinTypeError 2 else NameError "tree"),
     {| doc := insert_docker_tree (PStr name) "0.15.0" (server_url args)
                 (default (PInt 0) (connect_timeout args))
                 (default (PInt 0) (read_timeout args))
                 (default (PInt 100) (capacity args)) (doc w);
        disk := disk w |}).
Proof.
  intros H. unfold dockercloud_func, bind, lift_res, on_doc, get, pure.
  cbn [_empty_result doc disk].
  rewrite (insert_docker_run _ _ _ _ _ _ _ H). cbn [doc disk].
  destruct (opts_test env); reflexivity.
Qed.

Lemma dockercloud_func_mismatch (args : DockerArgs) (name conffile : string)
      (w : World) :
  tag (doc w) <> "hudson" ->
  dockercloud_func env args name conffile w =
    (Raise (ValueError "root element is not the <hudson> tag"), w).
Proof.
  intros H. unfold dockercloud_func, bind, lift_res, on_doc, get, pure.
  cbn [_empty_result doc disk].
  unfold _insert_docker. rewrite (root_tag_fail _ _ _ H).
  destruct w; reflexivity.
Qed.

Lemma adminemail_func_run (name conffile : string) (w : World) :
  adminemail_func env name conffile w =
    (Raise (ArityError "_empty_result" 0), w).
Proof. reflexivity. Qed.

End Loading.

(** ** The two states, seen from the caller *)

Section Invocations.

Variable env : Env.

Lemma dockercloud_loaded (name : string) (args : DockerArgs) (fname : string)
      (fs : FS) (tree : Element) :
  fst (_parse_config env fname fs) = Ok tree ->
  dockercloud env name args (Some fname) fs =
    {| outcome := fst (dockercloud_func env args name fname
                                        {| doc := tree; disk := fs |});
       tree_after := Some (doc (snd (dockercloud_func env args name fname
                                        {| doc := tree; disk := fs |})));
       disk_after := disk (snd (dockercloud_func env args name fname
                                        {| doc := tree; disk := fs |})) |}.
Proof.
  intros H. unfold dockercloud, _config_xmltree. cbn [_empty_result].
  rewrite (parse_config_Ok _ _ _ _ H).
  destruct (dockercloud_func env args name fname _). reflexivity.
Qed.

Lemma config_xmltree_load_failure (func : string -> string -> M World PyValue)
      (name fname : string) (fs : FS) (e : PyExn) :
  fst (_parse_config env fname fs) = Raise e ->
  _config_xmltree env func name (Some fname) fs =
    {| outcome := Ok (VFunction (error_func (empty_result_of name)));
       tree_after := None; disk_after := fs |}.
Proof.
  intros H. unfold _config_xmltree. cbn [_empty_result].
  rewrite (parse_config_Raise _ _ _ _ H). reflexivity.
Qed.

Lemma adminemail_loaded (name fname : string) (fs : FS) (tree : Element) :
  fst (_parse_config env fname fs) = Ok tree ->
  adminemail env name (Some fname) fs =
    {| outcome := Raise (ArityError "_empty_result" 0);
       tree_after := Some tree; disk_after := fs |}.
Proof.
  intros H. unfold adminemail, _config_xmltree. cbn [_empty_result].
  rewrite (parse_config_Ok _ _ _ _ H). reflexivity.
Qed.

(** No path through [dockercloud] reaches a write, in either mode. *)
Lemma dockercloud_disk (name : string) (args : DockerArgs)
      (conffile : option string) (fs : FS) :
  disk_after (dockercloud env name args conffile fs) = fs.
Proof.
  destruct conffile as [fname|]; [|reflexivity].
  destruct (fst (_parse_config env fname fs)) as [tree|e] eqn:H.
  - rewrite (dockercloud_loaded _ _ _ _ _ H). cbn [disk_after].
    destruct (String.eqb (tag tree) "hudson") eqn:E.
    + apply String.eqb_eq in E.
      rewrite (dockercloud_func_hudson env args name fname
                 {| doc := tree; disk := fs |} E). reflexivity.
    + apply String.eqb_neq in E.
      rewrite (dockercloud_func_mismatch env args name fname
                 {| doc := tree; disk := fs |} E). reflexivity.
  - unfold dockercloud. rewrite (config_xmltree_load_failure _ _ _ _ _ H).
    reflexivity.
Qed.

Lemma adminemail_disk (name : string) (conffile : option string) (fs : FS) :
  disk_after (adminemail env name conffile fs) = fs.
Proof.
  destruct conffile as [fname|]; [|reflexivity].
  destruct (fst (_parse_config env fname fs)) as [tree|e] eqn:H.
  - rewrite (adminemail_loaded _ _ _ _ H). reflexivity.
  - unfold adminemail. rewrite (config_xmltree_load_failure _ _ _ _ _ H).
    reflexivity.
Qed.

End Invocations.

(** C2 (what the code does instead): when the configuration file is absent
    or its content is not well-formed XML, no mutator runs and the disk is
    left as it was, but the invocation hands back the function object
    [error_func], closed over a result whose [result] is still [None] and
    whose comment is still empty; it does not return the result dictionary
    [_error] would make, with [result] false and a comment. *)
Theorem load_failure_returns_error_func
        (env : Env) (name : string) (args : DockerArgs) (fname : string)
        (fs : FS) :
  fs !! os_path_join (jenkins_home env) fname = None
  \/ (exists bytes, fs !! os_path_join (jenkins_home env) fname = Some bytes
                    /\ xml_parse env bytes = None) ->
  dockercloud env name args (Some fname) fs =
    {| outcome := Ok (VFunction (error_func (empty_result_of name)));
       tree_after := None; disk_after := fs |}
  /\ adminemail env name (Some fname) fs =
       {| outcome := Ok (VFunction (error_func (empty_result_of name)));
          tree_after := None; disk_after := fs |}
  /\ returns_change_result (dockercloud env name args (Some fname) fs) = false
  /\ returns_change_result (adminemail env name (Some fname) fs) = false
  /\ (forall msg,
         outcome (dockercloud env name args (Some fname) fs) <>
           Ok (VResult (_error (empty_result_of name) msg))).
Proof.
  intros H.
  assert (Hfail : exists e, fst (_parse_config env fname fs) = Raise e).
  { destruct H as [H|(bytes & H & Hp)].
    - rewrite (parse_config_absent _ _ _ H). eauto.
    - rewrite (parse_config_malformed _ _ _ _ H Hp). eauto. }
  destruct Hfail as [e He].
  unfold dockercloud, adminemail, returns_change_result.
  rewrite !(config_xmltree_load_failure _ _ _ _ _ _ He).
  repeat split; discriminate.
Qed.

Lemma load_failure_returns_error_func_witness :
  (sample_disk !! os_path_join (jenkins_home (sample_env false)) "missing.xml"
   = None
   \/ (exists bytes,
         sample_disk
           !! os_path_join (jenkins_home (sample_env false)) "missing.xml"
         = Some bytes
         /\ xml_parse (sample_env false) bytes = None))
  /\ outcome (dockercloud (sample_env false) "build1" sample_args
                          (Some "missing.xml") sample_disk)
     = Ok (VFunction (error_func (empty_result_of "build1"))).
Proof.
  assert (H : sample_disk
                !! os_path_join (jenkins_home (sample_env false)) "missing.xml"
              = None) by (vm_compute; reflexivity).
  split; [left; exact H|].
  destruct (load_failure_returns_error_func
              (sample_env false) "build1" sample_args "missing.xml"
              sample_disk (or_introl H)) as [Hd _].
  rewrite Hd. reflexivity.
Defined.

(** C3 (what the code does instead): when the file is present, well-formed
    and has the right root tag, [dockercloud] mutates the tree in memory and
    then raises, in either mode: in dry-run mode [str.join] meets the
    generator [unified_diff] returned (TypeError), in apply mode the name
    [tree] is unbound where [_write_config] is called (NameError).  No result
    dictionary is returned and nothing is written.  [adminemail] raises
    before it looks at the tree, whatever the mode. *)
Theorem loaded_invocation_raises
        (env : Env) (name : string) (args : DockerArgs) (fname : string)
        (fs : FS) (tree : Element) :
  fst (_parse_config env fname fs) = Ok tree ->
  (tag tree = "hudson" ->
   dockercloud env name args (Some fname) fs =
     {| outcome :=
          Raise (if opts_test env then JoinTypeError 2 else NameError "tree");
        tree_after :=
          Some (insert_docker_tree (PStr name) "0.15.0" (server_url args)
                  (default (PInt 0) (connect_timeout args))
                  (default (PInt 0) (read_timeout args))
                  (default (PInt 100) (capacity args)) tree);
        disk_after := fs |})
  /\ adminemail env name (Some fname) fs =
       {| outcome := Raise (ArityError "_empty_result" 0);
          tree_after := Some tree; disk_after := fs |}.
Proof.
  intros H. split.
  - intros Htag. rewrite (dockercloud_loaded _ _ _ _ _ _ H).
    rewrite (dockercloud_func_hudson env args name fname
               {| doc := tree; disk := fs |} Htag). reflexivity.
  - apply adminemail_loaded. exact H.
Qed.

Lemma loaded_invocation_raises_witness :
  (fst (_parse_config (sample_env false) "config.xml" sample_disk)
   = Ok hudson_empty
   /\ tag hudson_empty = "hudson")
  /\ outcome (dockercloud (sample_env false) "build1" sample_args
                          (Some "config.xml") sample_disk)
     = Raise (NameError "tree")
  /\ disk_after (dockercloud (sample_env false) "build1" sample_args
                             (Some "config.xml") sample_disk)
     = sample_disk.
Proof.
  assert (H : fst (_parse_config (sample_env false) "config.xml" sample_disk)
              = Ok hudson_empty) by (vm_compute; reflexivity).
  split; [split; [exact H|reflexivity]|].
  destruct (loaded_invocation_raises
              (sample_env false) "build1" sample_args "config.xml"
              sample_disk hudson_empty H) as [Hd _].
  rewrite (Hd eq_refl). split; reflexivity.
Defined.

(** X16: the root-tag guard compares the root tag with the expected one
    before the guarded function runs.  When they differ the call raises
    ValueError (the schema mismatch) and the tree is the one it was given;
    this holds for any guarded function, hence for both mutators.  An
    invocation of [dockercloud] on such a document raises that error with the
    tree in memory unmodified and the disk as it was. *)
Theorem root_tag_guard_aborts_before_mutation :
  (forall (A : Type) (tagname : string) (func : M Element A) (tree : Element),
      tag tree <> tagname ->
      _root_tag tagname func tree =
        (Raise (ValueError
                  ("root element is not the <" +:+ tagname +:+ "> tag")),
         tree))
  /\ (forall name version server_url connect_timeout read_timeout capacity
             tree,
         tag tree <> "hudson" ->
         _insert_docker name version server_url connect_timeout read_timeout
                        capacity tree =
           (Raise (ValueError "root element is not the <hudson> tag"), tree))
  /\ (forall emailaddress tree,
         tag tree <> admin_root_tag ->
         _set_admin_email emailaddress tree =
           (Raise (ValueError
                     "root element is not the <jenkins.model.JenkinsLocationConfiguration> tag"),
            tree))
  /\ (forall env name args fname fs tree,
         fst (_parse_config env fname fs) = Ok tree ->
         tag tree <> "hudson" ->
         dockercloud env name args (Some fname) fs =
           {| outcome :=
                Raise (ValueError "root element is not the <hudson> tag");
              tree_after := Some tree; disk_after := fs |}).
Proof.
  split; [intros A tagname func tree H; apply root_tag_fail; exact H|].
  split.
  { intros name version server_url connect_timeout read_timeout capacity
           tree H.
    unfold _insert_docker. rewrite (root_tag_fail _ _ _ H). reflexivity. }
  split.
  { intros emailaddress tree H.
    unfold _set_admin_email. rewrite (root_tag_fail _ _ _ H). reflexivity. }
  intros env name args fname fs tree H Htag.
  rewrite (dockercloud_loaded _ _ _ _ _ _ H).
  rewrite (dockercloud_func_mismatch env args name fname
             {| doc := tree; disk := fs |} Htag). reflexivity.
Qed.

Lemma root_tag_guard_aborts_before_mutation_witness :
  (fst (_parse_config (sample_env false) "job.xml" sample_disk)
   = Ok project_doc
   /\ tag project_doc <> "hudson")
  /\ dockercloud (sample_env false) "build1" sample_args (Some "job.xml")
                 sample_disk
     = {| outcome := Raise (ValueError "root element is not the <hudson> tag");
          tree_after := Some project_doc; disk_after := sample_disk |}.
Proof.
  assert (H : fst (_parse_config (sample_env false) "job.xml" sample_disk)
              = Ok project_doc) by (vm_compute; reflexivity).
  assert (Htag : tag project_doc <> "hudson") by discriminate.
  split; [split; assumption|].
  apply (proj2 (proj2 (proj2 root_tag_guard_aborts_before_mutation))
               (sample_env false) "build1" sample_args "job.xml" sample_disk
               project_doc H Htag).
Defined.

(** C7 (where the code departs from it): an invocation of [adminemail]
    never reaches the root-tag guard.  On a loaded document whose root tag is
    not the one [_set_admin_email] expects, the invocation raises the
    TypeError of the call [_empty_result()] and not the ValueError of the
    guard (the schema mismatch), although the guarded mutator, called on that
    very tree, raises the ValueError and hands the tree back unmodified.  The
    tree in memory and the disk are as they were. *)
Theorem adminemail_wrong_root_raises_before_guard
        (env : Env) (name fname : string) (fs : FS) (tree : Element) :
  fst (_parse_config env fname fs) = Ok tree ->
  tag tree <> admin_root_tag ->
  adminemail env name (Some fname) fs =
    {| outcome := Raise (ArityError "_empty_result" 0);
       tree_after := Some tree; disk_after := fs |}
  /\ outcome (adminemail env name (Some fname) fs) <>
       Raise (ValueError
                "root element is not the <jenkins.model.JenkinsLocationConfiguration> tag")
  /\ _set_admin_email name tree =
       (Raise (ValueError
                 "root element is not the <jenkins.model.JenkinsLocationConfiguration> tag"),
        tree).
Proof.
  intros H Htag.
  rewrite (adminemail_loaded _ _ _ _ _ H).
  split; [reflexivity|]. split; [discriminate|].
  unfold _set_admin_email. rewrite (root_tag_fail _ _ _ Htag). reflexivity.
Qed.

Lemma adminemail_wrong_root_raises_before_guard_witness :
  (fst (_parse_config (sample_env false) "job.xml" sample_disk)
   = Ok project_doc
   /\ tag project_doc <> admin_root_tag)
  /\ adminemail (sample_env false) "ops@example.com" (Some "job.xml")
                sample_disk
     = {| outcome := Raise (ArityError "_empty_result" 0);
          tree_after := Some project_doc; disk_after := sample_disk |}.
Proof.
  assert (H : fst (_parse_config (sample_env false) "job.xml" sample_disk)
              = Ok project_doc) by (vm_compute; reflexivity).
  assert (Htag : tag project_doc <> admin_root_tag) by discriminate.
  split; [split; assumption|].
  apply (proj1 (adminemail_wrong_root_raises_before_guard
                  (sample_env false) "ops@example.com" "job.xml" sample_disk
                  project_doc H Htag)).
Defined.

(** C8: a dry-run invocation leaves the disk as it was: whatever the name,
    the arguments, the configuration file named and the content of the disk,
    the disk after [dockercloud] or [adminemail] in test mode is the disk
    before. *)
Theorem dry_run_leaves_disk_unchanged
        (env : Env) (name : string) (args : DockerArgs)
        (conffile : option string) (fs : FS) :
  opts_test env = true ->
  disk_after (dockercloud env name args conffile fs) = fs
  /\ disk_after (adminemail env name conffile fs) = fs.
Proof.
  intros _. split; [apply dockercloud_disk|apply adminemail_disk].
Qed.

Lemma dry_run_leaves_disk_unchanged_witness :
  opts_test (sample_env true) = true
  /\ disk_after (dockercloud (sample_env true) "build1" sample_args
                             (Some "config.xml") sample_disk)
     = sample_disk.
Proof.
  split; [reflexivity|].
  apply (dry_run_leaves_disk_unchanged
           (sample_env true) "build1" sample_args (Some "config.xml")
           sample_disk).
  reflexivity.
Defined.

(** ** Which entry [_insert_docker] writes to *)

Lemma index_of_tag_app_new (tagname : string) (c : Element) :
  tag c = tagname ->
  forall l, index_of_tag tagname l = None ->
            index_of_tag tagname (l ++ [c]) = Some (length l).
Proof.
  intros Hc. induction l as [|x l IH]; simpl; intros H.
  - rewrite Hc, String.eqb_refl. reflexivity.
  - destruct (String.eqb (tag x) tagname); [discriminate|].
    destruct (index_of_tag tagname l); [discriminate|].
    rewrite (IH eq_refl). reflexivity.
Qed.

Lemma ensure_child_index (tagname : string) (t : Element) :
  index_of_tag tagname (children (snd (ensure_child tagname t))) =
    Some (fst (ensure_child tagname t)).
Proof.
  unfold ensure_child.
  destruct (index_of_tag tagname (children t)) as [i|] eqn:Hi; simpl.
  - exact Hi.
  - apply index_of_tag_app_new; [reflexivity|exact Hi].
Qed.

Lemma first_with_tag_app_new (tagname : string) (c : Element) :
  tag c = tagname ->
  forall l, first_with_tag tagname l = None ->
            first_with_tag tagname (l ++ [c]) = Some c.
Proof.
  intros Hc. unfold first_with_tag.
  induction l as [|x l IH]; simpl; intros H.
  - rewrite Hc, String.eqb_refl. reflexivity.
  - destruct (String.eqb (tag x) tagname); [discriminate|]. auto.
Qed.

Lemma cloud_entries_ensure_child (t : Element) :
  cloud_entries (snd (ensure_child "clouds" t)) = cloud_entries t.
Proof.
  unfold ensure_child, cloud_entries.
  destruct (index_of_tag "clouds" (children t)) as [i|] eqn:Hi; simpl.
  - reflexivity.
  - destruct (index_of_tag_None _ _ Hi) as [Hfirst _].
    rewrite Hfirst.
    rewrite (first_with_tag_app_new "clouds" (Elem "clouds" [] None [])
               eq_refl _ Hfirst).
    reflexivity.
Qed.

Lemma first_with_tag_alter (tagname : string) (f : Element -> Element) :
  (forall x, tag (f x) = tag x) ->
  forall l i, index_of_tag tagname l = Some i ->
              first_with_tag tagname (alter f i l) =
                option_map f (first_with_tag tagname l).
Proof.
  intros Hf. unfold first_with_tag.
  induction l as [|x l IH]; simpl; intros i H; [discriminate|].
  destruct (String.eqb (tag x) tagname) eqn:E.
  - inversion H; subst. simpl. rewrite Hf, E. reflexivity.
  - destruct (index_of_tag tagname l) as [j|]; [|discriminate].
    inversion H; subst. simpl. rewrite E. apply IH. reflexivity.
Qed.

Lemma filter_tag_alter (tagname : string) (f : Element -> Element) :
  (forall x, tag (f x) = tag x) ->
  forall l i,
    length (List.filter (fun c => String.eqb (tag c) tagname) (alter f i l)) =
    length (List.filter (fun c => String.eqb (tag c) tagname) l).
Proof.
  intros Hf. induction l as [|x l IH]; intros i; simpl; [reflexivity|].
  destruct i as [|i]; simpl.
  - rewrite Hf. destruct (String.eqb (tag x) tagname); reflexivity.
  - destruct (String.eqb (tag x) tagname); simpl; [f_equal|]; apply IH.
Qed.

Lemma indices_of_tag_lookup (tagname : string) :
  forall l base i,
    i ∈ indices_of_tag tagname base l ->
    exists c, l !! (i - base) = Some c
              /\ String.eqb (tag c) tagname = true.
Proof.
  induction l as [|c l IH]; intros base i H; simpl in *.
  - inversion H.
  - assert (Hrec : i ∈ indices_of_tag tagname (S base) l ->
                   exists c', (c :: l) !! (i - base) = Some c'
                              /\ String.eqb (tag c') tagname = true).
    { intros Hi. destruct (indices_of_tag_valid _ _ _ _ Hi) as [Hle _].
      destruct (IH _ _ Hi) as (c' & Hc' & Ht). exists c'. split; [|exact Ht].
      replace (i - base) with (S (i - S base)) by lia. exact Hc'. }
    destruct (String.eqb (tag c) tagname) eqn:E; [|auto].
    apply elem_of_cons in H as [->|H]; [|auto].
    exists c. rewrite Nat.sub_diag. auto.
Qed.

Lemma matching_entry_None (candidates : list nat) (kids : list Element) :
  (forall i entry, i ∈ candidates -> kids !! i = Some entry ->
                   entry_matches entry = false) ->
  matching_entry candidates kids = None.
Proof.
  induction candidates as [|i rest IH]; intros H; simpl; [reflexivity|].
  destruct (kids !! i) as [entry|] eqn:Hi.
  - rewrite (H i entry) by (auto; left). apply IH.
    intros j e Hj. apply H. right. exact Hj.
  - apply IH. intros j e Hj. apply H. right. exact Hj.
Qed.

(** When no cloud entry passes the test of the loop, the mutator returns
    normally and the cloud entries of the document are the former ones
    followed by one new entry, which holds the plugin attribute and the seven
    fields. *)
Lemma insert_docker_appends_entry name version server_url connect_timeout
      read_timeout capacity t :
  tag t = "hudson" ->
  Forall (fun entry => entry_matches entry = false) (cloud_entries t) ->
  _insert_docker name version server_url connect_timeout read_timeout
                 capacity t =
    (Ok tt,
     insert_docker_tree name version server_url connect_timeout read_timeout
                        capacity t)
  /\ cloud_entries
       (insert_docker_tree name version server_url connect_timeout
                           read_timeout capacity t) =
     cloud_entries t ++
       [Elem dockercloud_tag [("plugin", "docker-plugin@" +:+ version)] None
             (docker_fields name server_url connect_timeout read_timeout
                            capacity)].
Proof.
  intros Htag Hall. split; [apply insert_docker_run; exact Htag|].
  rewrite <- (cloud_entries_ensure_child t) in *.
  unfold insert_docker_tree.
  pose proof (ensure_child_index "clouds" t) as Hidx.
  destruct (ensure_child "clouds" t) as [ci t1]. simpl in Hidx, Hall |- *.
  destruct (index_of_tag_Some _ _ _ Hidx) as (clouds & Hc & Hfirst & _).
  rewrite Hc.
  unfold cloud_entries in Hall. rewrite Hfirst in Hall.
  rewrite matching_entry_None.
  - set (new := Elem dockercloud_tag _ None _).
    unfold cloud_entries. cbn [update children with_children].
    rewrite (first_with_tag_alter "clouds" (fun e => append_child new e)
               (fun x => eq_refl) _ _ Hidx).
    rewrite Hfirst. cbn [option_map].
    unfold children_with_tag, append_child. cbn [children with_children].
    rewrite List.filter_app. reflexivity.
  - intros i entry Hi Hentry.
    destruct (indices_of_tag_lookup _ _ _ _ Hi) as (c & Hci & Htc).
    rewrite Nat.sub_0_r, Hentry in Hci. inversion Hci; subst c.
    rewrite Forall_forall in Hall. apply Hall.
    unfold children_with_tag. apply list_elem_of_In, List.filter_In.
    split; [|exact Htc].
    apply list_elem_of_In, list_elem_of_lookup. eauto.
Qed.

Lemma indices_of_tag_complete (tagname : string) :
  forall l base j c,
    l !! j = Some c -> String.eqb (tag c) tagname = true ->
    (base + j) ∈ indices_of_tag tagname base l.
Proof.
  induction l as [|x l IH]; intros base j c Hj Hc; [inversion Hj|].
  simpl. destruct j as [|j]; simpl in Hj.
  - inversion Hj; subst x. rewrite Hc, Nat.add_0_r. left.
  - replace (base + S j) with (S base + j) by lia.
    destruct (String.eqb (tag x) tagname); [right|]; eapply IH; eauto.
Qed.

Lemma matching_entry_found (candidates : list nat) (kids : list Element) i
      entry :
  i ∈ candidates -> kids !! i = Some entry -> entry_matches entry = true ->
  exists k, matching_entry candidates kids = Some k.
Proof.
  induction candidates as [|j rest IH]; intros Hi Hentry Hm; [inversion Hi|].
  simpl. apply elem_of_cons in Hi as [->|Hi].
  - rewrite Hentry, Hm. eauto.
  - destruct (kids !! j) as [e|]; [|auto].
    destruct (entry_matches e); eauto.
Qed.

(** When some cloud entry passes the test of the loop, the fields go to an
    existing entry and the document holds as many cloud entries as before,
    whatever name was requested. *)
Lemma insert_docker_reuses_entry name version server_url connect_timeout
      read_timeout capacity t :
  Exists (fun entry => entry_matches entry = true) (cloud_entries t) ->
  length (cloud_entries
            (insert_docker_tree name version server_url connect_timeout
                                read_timeout capacity t)) =
  length (cloud_entries t).
Proof.
  intros Hex. rewrite <- (cloud_entries_ensure_child t) in *.
  unfold insert_docker_tree.
  pose proof (ensure_child_index "clouds" t) as Hidx.
  destruct (ensure_child "clouds" t) as [ci t1]. simpl in Hidx, Hex |- *.
  destruct (index_of_tag_Some _ _ _ Hidx) as (clouds & Hc & Hfirst & _).
  rewrite Hc.
  unfold cloud_entries in Hex. rewrite Hfirst in Hex.
  apply Exists_exists in Hex as (entry & Hin & Hm).
  unfold children_with_tag in Hin.
  apply list_elem_of_In, List.filter_In in Hin as [Hin Htag].
  apply list_elem_of_In, list_elem_of_lookup in Hin as [j Hj].
  destruct (matching_entry_found
              (indices_of_tag dockercloud_tag 0 (children clouds))
              (children clouds) j entry
              (indices_of_tag_complete _ _ 0 _ _ Hj Htag) Hj Hm) as [k Hk].
  rewrite Hk.
  unfold cloud_entries. cbn [update children with_children].
  set (fields := docker_fields _ _ _ _ _).
  rewrite (first_with_tag_alter "clouds"
             (fun e => with_children
                         (alter (fun e' => append_children fields e') k
                                (children e)) e)
             (fun x => eq_refl) _ _ Hidx).
  rewrite Hfirst. cbn [option_map].
  unfold children_with_tag. cbn [children with_children].
  apply (filter_tag_alter dockercloud_tag
           (fun e' => append_children fields e') (fun x => eq_refl)).
Qed.

(** The two scenarios of the specification, on the tree in memory. *)
Example insert_docker_on_empty_hudson :
  _insert_docker (PStr "build1") "0.15.0" (PStr "http://d:2376") (PInt 0)
                 (PInt 0) (PInt 100) hudson_empty
  = (Ok tt,
     Elem "hudson" [] None
          [Elem "clouds" [] None
                [Elem dockercloud_tag [("plugin", "docker-plugin@0.15.0")]
                      None
                      [Elem "name" [] (Some "build1") [];
                       Elem "templates" [("class", "empty-list")] None [];
                       Elem "serverUrl" [] (Some "http://d:2376") [];
                       Elem "connectTimeout" [] (Some "0") [];
                       Elem "readTimeout" [] (Some "0") [];
                       Elem "credentialsId" [] None [];
                       Elem "containerCap" [] (Some "100") []]]]).
Proof. reflexivity. Qed.

Example insert_docker_on_project :
  _insert_docker (PStr "build1") "0.15.0" (PStr "http://d:2376") (PInt 0)
                 (PInt 0) (PInt 100) project_doc
  = (Raise (ValueError "root element is not the <hudson> tag"), project_doc).
Proof. reflexivity. Qed.

(** Requesting the literal name twice: the second run finds the entry the
    first one made and appends the seven fields again. *)
Example insert_docker_twice_with_literal_name :
  let run := _insert_docker (PStr "name") "0.15.0" (PStr "http://d:2376")
                            (PInt 0) (PInt 0) (PInt 100) in
  map (fun entry => map tag (children entry))
      (cloud_entries (snd (run (snd (run hudson_empty)))))
  = [[ "name"; "templates"; "serverUrl"; "connectTimeout"; "readTimeout";
       "credentialsId"; "containerCap";
       "name"; "templates"; "serverUrl"; "connectTimeout"; "readTimeout";
       "credentialsId"; "containerCap" ]].
Proof. reflexivity. Qed.

Example xmlpp_of_clouds :
  _xmlpp (Elem "hudson" [] None
               [Elem "clouds" [] None [];
                Elem "label" [] (Some "a<b") []])
  = "<hudson>" +:+ nl +:+ "  <clouds/>" +:+ nl
    +:+ "  <label>a&lt;b</label>" +:+ nl +:+ "</hudson>" +:+ nl.
Proof. reflexivity. Qed.

(** C1 (what the code does instead): the loop compares the text of an
    entry's [name] child with the literal ['name'], not with the requested
    name.  So for every requested name other than that literal, a document
    whose only cloud entry already carries the requested name is not updated
    in place: the entry is left as it was and a second entry with the plugin
    attribute and the seven fields is created next to it. *)
Theorem existing_entry_of_requested_name_is_not_matched
        (s version : string)
        (server_url connect_timeout read_timeout capacity : PyVal) :
  s <> "name" ->
  entry_name (cloud_named s) = Some s
  /\ _insert_docker (PStr s) version server_url connect_timeout read_timeout
                    capacity (hudson_with_cloud s) =
       (Ok tt,
        Elem "hudson" [] None
             [Elem "clouds" [] None
                   [cloud_named s;
                    Elem dockercloud_tag
                         [("plugin", "docker-plugin@" +:+ version)] None
                         (docker_fields (PStr s) server_url connect_timeout
                                        read_timeout capacity)]]).
Proof.
  intros Hs. split; [reflexivity|].
  rewrite insert_docker_run by reflexivity. f_equal.
  unfold insert_docker_tree, hudson_with_cloud.
  cbn [ensure_child children index_of_tag tag String.eqb Ascii.eqb
       Bool.eqb option_map lookup list_lookup].
  simpl.
  apply String.eqb_neq in Hs.
  unfold entry_matches, entry_name, first_with_tag. simpl. rewrite Hs.
  reflexivity.
Qed.

Lemma existing_entry_of_requested_name_is_not_matched_witness :
  "build1" <> "name"
  /\ cloud_entries
       (snd (_insert_docker (PStr "build1") "0.15.0" (PStr "http://d:2376")
                            (PInt 0) (PInt 0) (PInt 100)
                            (hudson_with_cloud "build1")))
     = [cloud_named "build1";
        Elem dockercloud_tag [("plugin", "docker-plugin@0.15.0")] None
             (docker_fields (PStr "build1") (PStr "http://d:2376") (PInt 0)
                            (PInt 0) (PInt 100))].
Proof.
  assert (H : "build1" <> "name") by discriminate.
  split; [exact H|].
  destruct (existing_entry_of_requested_name_is_not_matched
              "build1" "0.15.0" (PStr "http://d:2376") (PInt 0) (PInt 0)
              (PInt 100) H) as [_ Hrun].
  rewrite Hrun. reflexivity.
Defined.

(** C5 (where the code departs from it): on a document whose only cloud
    entry is named by the literal ['name'], no entry matches the requested
    name [build1], yet [dockercloud] creates no entry: the loop breaks on the
    existing entry and the seven fields (with [containerCap] 100, the
    default) are appended to it. *)
Theorem entry_named_name_absorbs_the_fields :
  entry_name (cloud_named "name") <> Some "build1"
  /\ cloud_entries (hudson_with_cloud "name") = [cloud_named "name"]
  /\ fst (_parse_config (sample_env false) "clouds.xml" sample_disk)
     = Ok (hudson_with_cloud "name")
  /\ tree_after (dockercloud (sample_env false) "build1" sample_args
                             (Some "clouds.xml") sample_disk)
     = Some (Elem "hudson" [] None
               [Elem "clouds" [] None
                  [Elem dockercloud_tag
                        [("plugin", "docker-plugin@0.15.0")] None
                        [Elem "name" [] (Some "name") [];
                         Elem "name" [] (Some "build1") [];
                         Elem "templates" [("class", "empty-list")] None [];
                         Elem "serverUrl" [] (Some "http://d:2376") [];
                         Elem "connectTimeout" [] (Some "0") [];
                         Elem "readTimeout" [] (Some "0") [];
                         Elem "credentialsId" [] None [];
                         Elem "containerCap" [] (Some "100") []]]]).
Proof.
  split; [discriminate|].
  split; [reflexivity|].
  split; vm_compute; reflexivity.
Qed.

(** C10, amended: whenever the file named by [conffile] loads, [adminemail]
    raises while it builds its initial result, because [_empty_result] is
    called without its argument; and on every input whatsoever [adminemail]
    hands back no result dictionary. *)
Theorem adminemail_never_returns_a_result (env : Env) (name : string) :
  (forall fname fs tree,
      fst (_parse_config env fname fs) = Ok tree ->
      outcome (adminemail env name (Some fname) fs) =
        Raise (ArityError "_empty_result" 0))
  /\ (forall conffile fs,
         returns_change_result (adminemail env name conffile fs) = false).
Proof.
  split.
  - intros fname fs tree H. rewrite (adminemail_loaded _ _ _ _ _ H).
    reflexivity.
  - intros [fname|] fs; [|reflexivity].
    unfold returns_change_result.
    destruct (fst (_parse_config env fname fs)) as [tree|e] eqn:H.
    + rewrite (adminemail_loaded _ _ _ _ _ H). reflexivity.
    + unfold adminemail.
      rewrite (config_xmltree_load_failure _ _ _ _ _ _ H). reflexivity.
Qed.

Lemma adminemail_never_returns_a_result_witness :
  fst (_parse_config (sample_env true) admin_conffile sample_disk)
  = Ok admin_empty
  /\ outcome (adminemail (sample_env true) "ops@example.com"
                         (Some admin_conffile) sample_disk)
     = Raise (ArityError "_empty_result" 0).
Proof.
  assert (H : fst (_parse_config (sample_env true) admin_conffile sample_disk)
              = Ok admin_empty) by (vm_compute; reflexivity).
  split; [exact H|].
  apply (proj1 (adminemail_never_returns_a_result
                  (sample_env true) "ops@example.com")
               admin_conffile sample_disk admin_empty H).
Defined.

(** C10 as stated fails: when the configuration file is there but is not
    well-formed XML, [adminemail] raises nothing; the wrapper hands back
    [error_func] before the body, and with it the call of [_empty_result], is
    reached. *)
Lemma adminemail_malformed_file_does_not_raise :
  outcome (adminemail (sample_env true) "ops@example.com"
                      (Some "broken.xml") sample_disk)
  = Ok (VFunction (error_func (empty_result_of "ops@example.com")))
  /\ outcome (adminemail (sample_env true) "ops@example.com"
                         (Some "broken.xml") sample_disk)
     <> Raise (ArityError "_empty_result" 0).
Proof.
  assert (H : outcome (adminemail (sample_env true) "ops@example.com"
                                  (Some "broken.xml") sample_disk)
              = Ok (VFunction (error_func (empty_result_of "ops@example.com"))))
    by (vm_compute; reflexivity).
  split; [exact H|]. rewrite H. discriminate.
Qed.

(** ** The admin address *)

Lemma set_admin_email_run (emailaddress : string) (t : Element) :
  tag t = admin_root_tag ->
  _set_admin_email emailaddress t =
    (Ok tt, set_admin_email_tree emailaddress t).
Proof.
  intros H. unfold _set_admin_email. rewrite (root_tag_pass _ _ _ H).
  unfold _set_admin_email_func, bind, getroot, pure.
  rewrite find_or_add_root_run.
  unfold ensure_child, set_admin_email_tree.
  destruct (index_of_tag "adminAddress" (children t)) as [i|] eqn:Hi;
    cbn [fst snd].
  - destruct (index_of_tag_Some _ _ _ Hi) as (c & Hc & _).
    unfold set_text, bind, element, modify. simpl. rewrite Hc. reflexivity.
  - set (new := Elem "adminAddress" [] None []).
    unfold set_text, bind, element, modify.
    assert (Hd : deref [length (children t)] (append_child new t) = Some new).
    { simpl. rewrite lookup_app_r by lia. rewrite Nat.sub_diag. reflexivity. }
    rewrite Hd. f_equal.
    exact (append_then_alter (with_text (Some emailaddress)) new t).
Qed.

Lemma set_admin_email_tree_tag (emailaddress : string) (t : Element) :
  tag (set_admin_email_tree emailaddress t) = tag t.
Proof.
  unfold set_admin_email_tree.
  destruct (index_of_tag "adminAddress" (children t)); reflexivity.
Qed.

Lemma filter_tag_alter_first (tagname : string) (f : Element -> Element) :
  (forall x, tag (f x) = tag x) ->
  forall l i,
    index_of_tag tagname l = Some i ->
    List.filter (fun c => String.eqb (tag c) tagname) (alter f i l) =
      match List.filter (fun c => String.eqb (tag c) tagname) l with
      | [] => []
      | x :: rest => f x :: rest
      end.
Proof.
  intros Hf. induction l as [|x l IH]; simpl; intros i H; [discriminate|].
  destruct (String.eqb (tag x) tagname) eqn:E.
  - inversion H; subst. simpl. rewrite Hf, E. reflexivity.
  - destruct (index_of_tag tagname l) as [j|] eqn:Hj; [|discriminate].
    inversion H; subst. simpl. rewrite E. apply IH. reflexivity.
Qed.

(** The mutator rewrites the first [adminAddress] child and leaves any
    further ones as they are; it adds one only where there was none. *)
Lemma admin_addresses_after (emailaddress : string) (t : Element) :
  admin_addresses (set_admin_email_tree emailaddress t) =
    match admin_addresses t with
    | [] => [Elem "adminAddress" [] (Some emailaddress) []]
    | x :: rest => with_text (Some emailaddress) x :: rest
    end.
Proof.
  unfold admin_addresses, children_with_tag, set_admin_email_tree.
  destruct (index_of_tag "adminAddress" (children t)) as [i|] eqn:Hi.
  - cbn [update children with_children].
    rewrite (filter_tag_alter_first "adminAddress"
               (fun e => with_text (Some emailaddress) e)
               (fun x => eq_refl) _ _ Hi).
    destruct (index_of_tag_Some _ _ _ Hi) as (c & Hc & _ & Htag).
    destruct (List.filter _ (children t)) as [|x rest] eqn:Hf; [|reflexivity].
    exfalso.
    assert (Hin : In c (List.filter
                          (fun c => String.eqb (tag c) "adminAddress")
                          (children t))).
    { apply List.filter_In. split.
      - apply list_elem_of_In, list_elem_of_lookup. eauto.
      - rewrite Htag. reflexivity. }
    rewrite Hf in Hin. exact Hin.
  - destruct (index_of_tag_None _ _ Hi) as [_ Hnone].
    unfold append_child. cbn [children with_children].
    rewrite List.filter_app, Hnone. reflexivity.
Qed.

(** C6, amended: on every document with the expected root tag whose root has
    at most one [adminAddress] child, applying the mutator with one address
    and then with another (the same or a different one) returns normally both
    times and leaves exactly one [adminAddress] element, holding the second
    address. *)
Theorem set_admin_email_leaves_one_address
        (t : Element) (first second : string) :
  tag t = admin_root_tag ->
  length (admin_addresses t) <= 1 ->
  let t1 := set_admin_email_tree first t in
  let t2 := set_admin_email_tree second t1 in
  _set_admin_email first t = (Ok tt, t1)
  /\ exactly_one_admin_address first t1
  /\ _set_admin_email second t1 = (Ok tt, t2)
  /\ exactly_one_admin_address second t2.
Proof.
  intros Htag Hlen t1 t2.
  assert (H1 : exactly_one_admin_address first t1).
  { unfold exactly_one_admin_address, t1. rewrite admin_addresses_after.
    destruct (admin_addresses t) as [|x [|y rest]]; simpl in Hlen;
      [eauto | eauto | lia]. }
  split; [apply set_admin_email_run; exact Htag|].
  split; [exact H1|].
  split.
  { apply set_admin_email_run. unfold t1.
    rewrite set_admin_email_tree_tag. exact Htag. }
  destruct H1 as (x & Hx & _).
  unfold exactly_one_admin_address, t2. rewrite admin_addresses_after, Hx.
  eauto.
Qed.

Lemma set_admin_email_leaves_one_address_witness :
  (tag admin_empty = admin_root_tag
   /\ length (admin_addresses admin_empty) <= 1)
  /\ exactly_one_admin_address "new@example.com"
       (snd (_set_admin_email "new@example.com"
               (snd (_set_admin_email "ops@example.com" admin_empty)))).
Proof.
  assert (Hlen : length (admin_addresses admin_empty) <= 1)
    by (simpl; lia).
  split; [split; [reflexivity|exact Hlen]|].
  destruct (set_admin_email_leaves_one_address
              admin_empty "ops@example.com" "new@example.com" eq_refl Hlen)
    as (Hr1 & _ & Hr2 & Hone).
  rewrite Hr1. cbn [snd]. rewrite Hr2. exact Hone.
Defined.

(** C6 as stated fails on a document that already holds two [adminAddress]
    elements: after two applications with the same address both are still
    there. *)
Lemma two_admin_addresses_stay_two :
  ~ exactly_one_admin_address "ops@example.com"
      (snd (_set_admin_email "ops@example.com"
              (snd (_set_admin_email "ops@example.com" admin_two_addresses)))).
Proof.
  intros (x & Hx & _). vm_compute in Hx. discriminate.
Qed.

(** ** Serialization *)

Lemma Element_nested_ind (P : Element -> Prop) :
  (forall tg attrs txt kids, Forall P kids -> P (Elem tg attrs txt kids)) ->
  forall e, P e.
Proof.
  intros H. fix IH 1. intros [tg attrs txt kids]. apply H.
  induction kids as [|k kids IHk]; constructor; [apply IH|exact IHk].
Qed.

Lemma escape_ascii (in_attr : bool) (s : string) :
  ascii_string s = true -> escape in_attr ASCII s = escape in_attr UTF8 s.
Proof.
  induction s as [|c s IH]; simpl; intros H; [reflexivity|].
  apply andb_prop in H as [Hc Hs]. rewrite (IH Hs).
  unfold escape_char, encode_char. rewrite Hc. reflexivity.
Qed.

Lemma dump_attrs_ascii (attrs : list (string * string)) :
  forallb (fun kv => andb (ascii_string (fst kv)) (ascii_string (snd kv)))
          attrs = true ->
  dump_attrs ASCII attrs = dump_attrs UTF8 attrs.
Proof.
  induction attrs as [|[k v] attrs IH]; simpl; intros H; [reflexivity|].
  apply andb_prop in H as [Hkv Hrest]. apply andb_prop in Hkv as [_ Hv].
  rewrite (escape_ascii true v Hv), (IH Hrest). reflexivity.
Qed.

(** On a document of ASCII strings the encoding makes no difference. *)
Lemma dump_ascii (e : Element) :
  ascii_only e = true ->
  forall format level, dump ASCII format level e = dump UTF8 format level e.
Proof.
  induction e as [tg attrs txt kids IH] using Element_nested_ind.
  intros H format level. simpl in H.
  apply andb_prop in H as [_ H]. apply andb_prop in H as [Hattrs H].
  apply andb_prop in H as [Htxt Hkids].
  cbn [dump]. rewrite (dump_attrs_ascii attrs Hattrs).
  assert (Hmap : forall (pre post : string) (fmt : bool),
             map (fun k => pre +:+ dump ASCII fmt (S level) k +:+ post) kids
             = map (fun k => pre +:+ dump UTF8 fmt (S level) k +:+ post) kids).
  { intros pre post fmt. apply map_ext_in. intros k Hk.
    rewrite Forall_forall in IH.
    rewrite (IH k); [reflexivity| |].
    - apply list_elem_of_In. exact Hk.
    - rewrite forallb_forall in Hkids. apply Hkids. exact Hk. }
  destruct txt as [s|].
  - rewrite (escape_ascii false s Htxt), (Hmap "" "" false). reflexivity.
  - rewrite (Hmap (if format then indent (S level) else "")
                  (if format then nl else "") format).
    reflexivity.
Qed.

Lemma write_bytes_ascii (tree : Element) :
  ascii_only tree = true ->
  write_bytes tree = xml_declaration +:+ _xmlpp tree.
Proof.
  intros H. unfold write_bytes, _xmlpp, tostring.
  rewrite (dump_ascii tree H). reflexivity.
Qed.

Lemma string_length_append (a b : string) :
  String.length (a +:+ b) = String.length a + String.length b.
Proof. induction a as [|c a IH]; simpl; [reflexivity|]. rewrite IH. reflexivity. Qed.

Lemma write_config_run (env : Env) (fname : string) (tree : Element)
      (fs : FS) :
  os_path_isfile fs (os_path_join (jenkins_home env) fname) = true ->
  _write_config env fname tree fs =
    (Ok tt, <[os_path_join (jenkins_home env) fname := write_bytes tree]> fs).
Proof.
  intros H. unfold _write_config, bind. rewrite get_config_run, H.
  reflexivity.
Qed.

(** C9, amended: for every document whose strings are ASCII, the write step
    puts in the file the XML declaration line followed by exactly the bytes
    produced for diffing; the file content therefore never equals the diffed
    rendering itself. *)
Theorem written_file_is_declaration_then_diffed_bytes
        (env : Env) (fname : string) (tree : Element) (fs : FS) :
  ascii_only tree = true ->
  os_path_isfile fs (os_path_join (jenkins_home env) fname) = true ->
  _write_config env fname tree fs =
    (Ok tt,
     <[os_path_join (jenkins_home env) fname :=
         xml_declaration +:+ _xmlpp tree]> fs)
  /\ xml_declaration +:+ _xmlpp tree <> _xmlpp tree.
Proof.
  intros Hascii Hfile. split.
  - rewrite (write_config_run _ _ _ _ Hfile), (write_bytes_ascii _ Hascii).
    reflexivity.
  - intros Heq. apply (f_equal String.length) in Heq.
    rewrite string_length_append in Heq. simpl in Heq. lia.
Qed.

Lemma written_file_is_declaration_then_diffed_bytes_witness :
  (ascii_only hudson_empty = true
   /\ os_path_isfile sample_disk
        (os_path_join (jenkins_home (sample_env false)) "config.xml") = true)
  /\ snd (_write_config (sample_env false) "config.xml" hudson_empty
                        sample_disk)
       !! "/var/lib/jenkins/config.xml"
     = Some (xml_declaration +:+ _xmlpp hudson_empty).
Proof.
  assert (Hfile : os_path_isfile sample_disk
                    (os_path_join (jenkins_home (sample_env false))
                                  "config.xml") = true)
    by (vm_compute; reflexivity).
  split; [split; [reflexivity|exact Hfile]|].
  destruct (written_file_is_declaration_then_diffed_bytes
              (sample_env false) "config.xml" hudson_empty sample_disk
              eq_refl Hfile) as [Hrun _].
  rewrite Hrun. cbn [snd]. apply lookup_insert_eq.
Defined.

(** C9 as stated fails: for the document [<hudson/>] the bytes the write
    step puts in the file are not the bytes produced for diffing. *)
Lemma written_bytes_differ_from_diffed_bytes :
  snd (_write_config (sample_env false) "config.xml" hudson_empty sample_disk)
    !! "/var/lib/jenkins/config.xml"
  <> Some (_xmlpp hudson_empty).
Proof. vm_compute. discriminate. Qed.

(** Outside ASCII the two renderings differ beyond the declaration. *)
Example latin1_renderings_differ :
  write_bytes latin1_doc <> xml_declaration +:+ _xmlpp latin1_doc.
Proof. vm_compute. discriminate. Qed.

(** * Further properties of the module *)

(** ** [_find_or_add] *)

Lemma find_or_add_run (tagname : string) (parent : Ref) t e :
  deref parent t = Some e ->
  _find_or_add tagname parent t =
    (Ok (parent ++ [fst (ensure_child tagname e)]),
     match index_of_tag tagname (children e) with
     | Some _ => t
     | None => update parent (append_child (Elem tagname [] None [])) t
     end).
Proof.
  intros H. unfold _find_or_add, bind.
  rewrite (find_run _ _ _ _ H). unfold ensure_child.
  destruct (index_of_tag tagname (children e)) as [i|]; simpl.
  - reflexivity.
  - rewrite (SubElement_run _ _ _ _ _ H). reflexivity.
Qed.

(** X1: on any live parent, [_find_or_add] hands back a child with the
    requested tag.  When the parent already has such a child, it is the first
    one and the tree is not touched; otherwise one empty child is appended.
    Asking again gives the same handle and changes nothing: the function is
    idempotent. *)
Theorem find_or_add_is_idempotent
        (tagname : string) (parent : Ref) (t e : Element) :
  deref parent t = Some e ->
  exists r t' c,
    _find_or_add tagname parent t = (Ok r, t')
    /\ deref r t' = Some c
    /\ tag c = tagname
    /\ (forall c0, first_with_tag tagname (children e) = Some c0 ->
                   t' = t /\ c = c0)
    /\ (first_with_tag tagname (children e) = None ->
        t' = update parent (append_child (Elem tagname [] None [])) t
        /\ c = Elem tagname [] None []
        /\ r = parent ++ [length (children e)])
    /\ _find_or_add tagname parent t' = (Ok r, t').
Proof.
  intros H. rewrite (find_or_add_run tagname _ _ _ H). unfold ensure_child.
  destruct (index_of_tag tagname (children e)) as [i|] eqn:Hi; cbn [fst].
  - destruct (index_of_tag_Some _ _ _ Hi) as (c & Hc & Hfirst & Htag).
    exists (parent ++ [i]), t, c.
    split; [reflexivity|].
    split; [rewrite deref_app, H; exact Hc|].
    split; [exact Htag|].
    split; [intros c0 H0; rewrite Hfirst in H0; inversion H0; auto|].
    split; [intros H0; rewrite Hfirst in H0; discriminate|].
    rewrite (find_or_add_run tagname _ _ _ H). unfold ensure_child.
    rewrite Hi. reflexivity.
  - destruct (index_of_tag_None _ _ Hi) as [Hfirst _].
    set (new := Elem tagname [] None []).
    pose proof (deref_update_eq parent (append_child new) _ _ H) as H'.
    exists (parent ++ [length (children e)]),
           (update parent (append_child new) t), new.
    split; [reflexivity|].
    split.
    { rewrite deref_app, H'. simpl.
      rewrite lookup_app_r by lia. rewrite Nat.sub_diag. reflexivity. }
    split; [reflexivity|].
    split; [intros c0 H0; rewrite Hfirst in H0; discriminate|].
    split; [auto|].
    rewrite (find_or_add_run tagname _ _ _ H'). unfold ensure_child.
    cbn [children append_child with_children].
    rewrite (index_of_tag_app_new tagname new eq_refl _ Hi). reflexivity.
Qed.

Lemma find_or_add_is_idempotent_witness :
  deref [0] (hudson_with_cloud "build1")
  = Some (Elem "clouds" [] None [cloud_named "build1"])
  /\ exists r t' c,
       _find_or_add "templates" [0] (hudson_with_cloud "build1") = (Ok r, t')
       /\ deref r t' = Some c
       /\ tag c = "templates".
Proof.
  split; [reflexivity|].
  destruct (find_or_add_is_idempotent
              "templates" [0] (hudson_with_cloud "build1")
              (Elem "clouds" [] None [cloud_named "build1"]) eq_refl)
    as (r & t' & c & Hrun & Hd & Htag & _).
  exists r, t', c. auto.
Defined.

(** ** The configuration file on disk *)

(** X15: loading classifies the file and never writes.  A path that is no
    file gives the IOError of [_get_config], which names the file and the
    home directory; a file the parser rejects gives the parser's error; any
    other file gives its tree.  The disk is the same afterwards in all three
    cases. *)
Theorem parse_config_classifies (env : Env) (fname : string) (fs : FS) :
  _parse_config env fname fs =
    (match fs !! os_path_join (jenkins_home env) fname with
     | None =>
         Raise (IOError (fname +:+ " not found in jenkins home directory "
                               +:+ jenkins_home env))
     | Some bytes =>
         match xml_parse env bytes with
         | Some tree => Ok tree
         | None => Raise XMLSyntaxError
         end
     end, fs).
Proof.
  destruct (fs !! os_path_join (jenkins_home env) fname) as [bytes|] eqn:H.
  - destruct (xml_parse env bytes) as [tree|] eqn:Hp.
    + apply (parse_config_wellformed _ _ _ _ _ H Hp).
    + apply (parse_config_malformed _ _ _ _ H Hp).
  - apply (parse_config_absent _ _ _ H).
Qed.

(** X2: a configuration file name that starts with a slash is not looked up
    under the Jenkins home: [_get_config] resolves it to itself, whatever
    the home directory is, and [_write_config] overwrites that very file. *)
Theorem absolute_conffile_ignores_home
        (env : Env) (fname : string) (tree : Element) (fs : FS)
        (old : string) :
  startswith_slash fname = true ->
  fs !! fname = Some old ->
  _get_config env fname fs = (Ok fname, fs)
  /\ _write_config env fname tree fs =
       (Ok tt, <[fname := write_bytes tree]> fs).
Proof.
  intros Habs Hfile.
  assert (Hpath : os_path_join (jenkins_home env) fname = fname)
    by (unfold os_path_join; rewrite Habs; reflexivity).
  split.
  - rewrite get_config_run, Hpath. unfold os_path_isfile. rewrite Hfile.
    reflexivity.
  - rewrite (write_config_run env fname tree fs); rewrite Hpath.
    + reflexivity.
    + unfold os_path_isfile. rewrite Hfile. reflexivity.
Qed.

Lemma absolute_conffile_ignores_home_witness :
  (startswith_slash "/etc/passwd.xml" = true
   /\ ({[ "/etc/passwd.xml" := "<a/>" ]} : FS) !! "/etc/passwd.xml"
      = Some "<a/>")
  /\ _get_config (sample_env false) "/etc/passwd.xml"
                 {[ "/etc/passwd.xml" := "<a/>" ]}
     = (Ok "/etc/passwd.xml", {[ "/etc/passwd.xml" := "<a/>" ]}).
Proof.
  assert (H : ({[ "/etc/passwd.xml" := "<a/>" ]} : FS) !! "/etc/passwd.xml"
              = Some "<a/>") by (vm_compute; reflexivity).
  split; [split; [reflexivity|exact H]|].
  apply (proj1 (absolute_conffile_ignores_home
                  (sample_env false) "/etc/passwd.xml" hudson_empty
                  {[ "/etc/passwd.xml" := "<a/>" ]} "<a/>" eq_refl H)).
Defined.

(** ** What the two states hand back *)

(** X5: [dockercloud] never hands back a result dictionary.  Without a
    [conffile] keyword the wrapper raises KeyError (the default of the
    signature is not consulted); when the file does not load it hands back
    [error_func]; when the root tag is wrong it raises the ValueError of the
    guard; otherwise it raises after the mutation, on [str.join] in test mode
    and on the unbound name [tree] in apply mode. *)
Theorem dockercloud_outcomes
        (env : Env) (name : string) (args : DockerArgs)
        (conffile : option string) (fs : FS) :
  outcome (dockercloud env name args conffile fs) =
    match conffile with
    | None => Raise (KeyError "conffile")
    | Some fname =>
        match fst (_parse_config env fname fs) with
        | Raise _ => Ok (VFunction (error_func (empty_result_of name)))
        | Ok tree =>
            if String.eqb (tag tree) "hudson" then
              Raise (if opts_test env then JoinTypeError 2
                     else NameError "tree")
            else Raise (ValueError "root element is not the <hudson> tag")
        end
    end
  /\ returns_change_result (dockercloud env name args conffile fs) = false.
Proof.
  assert (Hout :
    outcome (dockercloud env name args conffile fs) =
      match conffile with
      | None => Raise (KeyError "conffile")
      | Some fname =>
          match fst (_parse_config env fname fs) with
          | Raise _ => Ok (VFunction (error_func (empty_result_of name)))
          | Ok tree =>
              if String.eqb (tag tree) "hudson" then
                Raise (if opts_test env then JoinTypeError 2
                       else NameError "tree")
              else Raise (ValueError "root element is not the <hudson> tag")
          end
      end).
  { destruct conffile as [fname|]; [|reflexivity].
    destruct (fst (_parse_config env fname fs)) as [tree|e] eqn:H.
    - rewrite (dockercloud_loaded _ _ _ _ _ _ H). cbn [outcome].
      destruct (String.eqb (tag tree) "hudson") eqn:E.
      + apply String.eqb_eq in E.
        rewrite (dockercloud_func_hudson env args name fname
                   {| doc := tree; disk := fs |} E). reflexivity.
      + apply String.eqb_neq in E.
        rewrite (dockercloud_func_mismatch env args name fname
                   {| doc := tree; disk := fs |} E). reflexivity.
    - unfold dockercloud.
      rewrite (config_xmltree_load_failure _ _ _ _ _ _ H). reflexivity. }
  split; [exact Hout|].
  unfold returns_change_result. rewrite Hout.
  destruct conffile as [fname|]; [|reflexivity].
  destruct (fst (_parse_config env fname fs)) as [tree|e]; [|reflexivity].
  destruct (String.eqb (tag tree) "hudson"); reflexivity.
Qed.

(** X6: neither state writes, in apply mode no more than in test mode: for
    every environment and every input the disk after [dockercloud] or
    [adminemail] is the disk before.  The one write of the module, in
    [_write_config], is out of reach of both. *)
Theorem states_never_write
        (env : Env) (name : string) (args : DockerArgs)
        (conffile : option string) (fs : FS) :
  disk_after (dockercloud env name args conffile fs) = fs
  /\ disk_after (adminemail env name conffile fs) = fs.
Proof. split; [apply dockercloud_disk|apply adminemail_disk]. Qed.

(** ** The cloud entries after [dockercloud] *)

Lemma insert_docker_tree_tag name version server_url connect_timeout
      read_timeout capacity t :
  tag (insert_docker_tree name version server_url connect_timeout
                          read_timeout capacity t) = tag t.
Proof.
  unfold insert_docker_tree, ensure_child.
  destruct (index_of_tag "clouds" (children t)) as [i|]; cbn [fst snd].
  - destruct (children t !! i); [|reflexivity].
    destruct (matching_entry _ _); reflexivity.
  - destruct (children (append_child _ t) !! _); [|reflexivity].
    destruct (matching_entry _ _); reflexivity.
Qed.

(** X7: on a loaded [hudson] document none of whose cloud entries has the
    literal ['name'] in its first [name] child, [dockercloud] leaves in
    memory the former cloud entries followed by one new entry: plugin
    version 0.15.0, the state's name, the server URL, and for what the caller
    left out the defaults of the signature (timeouts 0, capacity 100). *)
Theorem dockercloud_appends_entry_with_defaults
        (env : Env) (name : string) (args : DockerArgs) (fname : string)
        (fs : FS) (tree : Element) :
  fst (_parse_config env fname fs) = Ok tree ->
  tag tree = "hudson" ->
  Forall (fun entry => entry_matches entry = false) (cloud_entries tree) ->
  exists t',
    tree_after (dockercloud env name args (Some fname) fs) = Some t'
    /\ cloud_entries t' =
         cloud_entries tree ++
           [Elem dockercloud_tag [("plugin", "docker-plugin@0.15.0")] None
                 (docker_fields (PStr name) (server_url args)
                    (default (PInt 0) (connect_timeout args))
                    (default (PInt 0) (read_timeout args))
                    (default (PInt 100) (capacity args)))].
Proof.
  intros H Htag Hall. eexists. split.
  - rewrite (dockercloud_loaded _ _ _ _ _ _ H).
    rewrite (dockercloud_func_hudson env args name fname
               {| doc := tree; disk := fs |} Htag). reflexivity.
  - cbn [doc].
    exact (proj2 (insert_docker_appends_entry (PStr name) "0.15.0" _ _ _ _
                    tree Htag Hall)).
Qed.

Lemma dockercloud_appends_entry_with_defaults_witness :
  (fst (_parse_config (sample_env true) "config.xml" sample_disk)
   = Ok hudson_empty
   /\ tag hudson_empty = "hudson"
   /\ Forall (fun entry => entry_matches entry = false)
             (cloud_entries hudson_empty))
  /\ exists t',
       tree_after (dockercloud (sample_env true) "build1" sample_args
                               (Some "config.xml") sample_disk) = Some t'
       /\ cloud_entries t' =
            [Elem dockercloud_tag [("plugin", "docker-plugin@0.15.0")] None
                  (docker_fields (PStr "build1") (PStr "http://d:2376")
                                 (PInt 0) (PInt 0) (PInt 100))].
Proof.
  assert (H : fst (_parse_config (sample_env true) "config.xml" sample_disk)
              = Ok hudson_empty) by (vm_compute; reflexivity).
  assert (Hall : Forall (fun entry => entry_matches entry = false)
                        (cloud_entries hudson_empty)) by constructor.
  split; [split; [exact H|split; [reflexivity|exact Hall]]|].
  exact (dockercloud_appends_entry_with_defaults
           (sample_env true) "build1" sample_args "config.xml" sample_disk
           hudson_empty H eq_refl Hall).
Defined.

(** X8: as soon as one cloud entry has the literal ['name'] in its first
    [name] child, [_insert_docker] creates no entry, whatever name is
    requested: it returns normally and the document holds as many cloud
    entries as before. *)
Theorem insert_docker_creates_nothing_beside_literal_name
        (name : PyVal) (version : string)
        (server_url connect_timeout read_timeout capacity : PyVal)
        (t : Element) :
  tag t = "hudson" ->
  Exists (fun entry => entry_matches entry = true) (cloud_entries t) ->
  exists t',
    _insert_docker name version server_url connect_timeout read_timeout
                   capacity t = (Ok tt, t')
    /\ length (cloud_entries t') = length (cloud_entries t).
Proof.
  intros Htag Hex. eexists. split.
  - apply insert_docker_run. exact Htag.
  - apply insert_docker_reuses_entry. exact Hex.
Qed.

Lemma insert_docker_creates_nothing_beside_literal_name_witness :
  (tag (hudson_with_cloud "name") = "hudson"
   /\ Exists (fun entry => entry_matches entry = true)
             (cloud_entries (hudson_with_cloud "name")))
  /\ exists t',
       _insert_docker (PStr "build1") "0.15.0" (PStr "http://d:2376")
                      (PInt 0) (PInt 0) (PInt 100) (hudson_with_cloud "name")
       = (Ok tt, t')
       /\ length (cloud_entries t') = 1.
Proof.
  assert (Hex : Exists (fun entry => entry_matches entry = true)
                       (cloud_entries (hudson_with_cloud "name")))
    by (left; reflexivity).
  split; [split; [reflexivity|exact Hex]|].
  exact (insert_docker_creates_nothing_beside_literal_name
           (PStr "build1") "0.15.0" (PStr "http://d:2376") (PInt 0) (PInt 0)
           (PInt 100) (hudson_with_cloud "name") eq_refl Hex).
Defined.

Lemma new_entry_does_not_match name version server_url connect_timeout
      read_timeout capacity :
  py_str name <> "name" ->
  entry_matches
    (Elem dockercloud_tag [("plugin", "docker-plugin@" +:+ version)] None
          (docker_fields name server_url connect_timeout read_timeout
                         capacity)) = false.
Proof.
  intros H. unfold entry_matches, entry_name, first_with_tag. simpl.
  apply String.eqb_neq. exact H.
Qed.

(** X9: applying [_insert_docker] twice with the same arguments duplicates
    the entry.  On a [hudson] document none of whose cloud entries has the
    literal ['name'] in its first [name] child, and for a requested name
    other than that literal, both runs return normally and the document ends
    with two equal new entries after the former ones. *)
Theorem insert_docker_twice_duplicates_the_entry
        (name : PyVal) (version : string)
        (server_url connect_timeout read_timeout capacity : PyVal)
        (t : Element) :
  tag t = "hudson" ->
  Forall (fun entry => entry_matches entry = false) (cloud_entries t) ->
  py_str name <> "name" ->
  let entry :=
    Elem dockercloud_tag [("plugin", "docker-plugin@" +:+ version)] None
         (docker_fields name server_url connect_timeout read_timeout
                        capacity) in
  exists t1 t2,
    _insert_docker name version server_url connect_timeout read_timeout
                   capacity t = (Ok tt, t1)
    /\ _insert_docker name version server_url connect_timeout read_timeout
                      capacity t1 = (Ok tt, t2)
    /\ cloud_entries t2 = cloud_entries t ++ [entry; entry].
Proof.
  intros Htag Hall Hname entry.
  destruct (insert_docker_appends_entry name version server_url
              connect_timeout read_timeout capacity t Htag Hall)
    as [Hrun1 Hent1].
  set (t1 := insert_docker_tree name version server_url connect_timeout
                                read_timeout capacity t) in *.
  assert (Htag1 : tag t1 = "hudson")
    by (unfold t1; rewrite insert_docker_tree_tag; exact Htag).
  assert (Hall1 : Forall (fun e => entry_matches e = false)
                         (cloud_entries t1)).
  { rewrite Hent1. apply Forall_app. split; [exact Hall|].
    constructor; [|constructor].
    apply new_entry_does_not_match. exact Hname. }
  destruct (insert_docker_appends_entry name version server_url
              connect_timeout read_timeout capacity t1 Htag1 Hall1)
    as [Hrun2 Hent2].
  exists t1, (insert_docker_tree name version server_url connect_timeout
                                 read_timeout capacity t1).
  split; [exact Hrun1|]. split; [exact Hrun2|].
  rewrite Hent2, Hent1, <- app_assoc. reflexivity.
Qed.

Lemma insert_docker_twice_duplicates_the_entry_witness :
  (tag hudson_empty = "hudson"
   /\ Forall (fun entry => entry_matches entry = false)
             (cloud_entries hudson_empty)
   /\ py_str (PStr "build1") <> "name")
  /\ exists t1 t2,
       _insert_docker (PStr "build1") "0.15.0" (PStr "http://d:2376")
                      (PInt 0) (PInt 0) (PInt 100) hudson_empty = (Ok tt, t1)
       /\ _insert_docker (PStr "build1") "0.15.0" (PStr "http://d:2376")
                         (PInt 0) (PInt 0) (PInt 100) t1 = (Ok tt, t2)
       /\ length (cloud_entries t2) = 2.
Proof.
  assert (Hall : Forall (fun entry => entry_matches entry = false)
                        (cloud_entries hudson_empty)) by constructor.
  assert (Hname : py_str (PStr "build1") <> "name") by discriminate.
  split; [split; [reflexivity|split; [exact Hall|exact Hname]]|].
  destruct (insert_docker_twice_duplicates_the_entry
              (PStr "build1") "0.15.0" (PStr "http://d:2376") (PInt 0)
              (PInt 0) (PInt 100) hudson_empty eq_refl Hall Hname)
    as (t1 & t2 & H1 & H2 & Hent).
  exists t1, t2. split; [exact H1|]. split; [exact H2|].
  rewrite Hent. reflexivity.
Defined.

(** ** What [_insert_docker] keeps and what it adds *)

Lemma same_node_refl (e : Element) : same_node e e.
Proof. unfold same_node. auto. Qed.

Lemma same_node_trans (e1 e2 e3 : Element) :
  same_node e1 e2 -> same_node e2 e3 -> same_node e1 e3.
Proof.
  unfold same_node. intros (-> & -> & -> & H12) (-> & -> & -> & H23).
  repeat split; lia.
Qed.

Lemma deref_update_append (cs : list Element) :
  forall p r t e,
    deref r t = Some e ->
    exists e', deref r (update p (append_children cs) t) = Some e'
               /\ same_node e e'.
Proof.
  induction p as [|j p IH]; intros r t e H.
  - destruct r as [|i r]; simpl in *.
    + inversion H; subst. eexists. split; [reflexivity|].
      unfold same_node. simpl. rewrite length_app. repeat split; lia.
    + destruct (children t !! i) as [c|] eqn:Hc; [|discriminate].
      rewrite (lookup_app_l_Some _ _ _ _ Hc).
      exists e. split; [exact H|apply same_node_refl].
  - destruct r as [|i r]; simpl in *.
    + inversion H; subst. eexists. split; [reflexivity|].
      unfold same_node. simpl. rewrite length_alter. auto.
    + destruct (children t !! i) as [c|] eqn:Hc; [|discriminate].
      rewrite list_lookup_alter. destruct (decide (j = i)) as [->|Hne].
      * rewrite Hc. simpl. apply IH. exact H.
      * rewrite Hc. exists e. split; [exact H|apply same_node_refl].
Qed.

Lemma insert_docker_tree_shape name version server_url connect_timeout
      read_timeout capacity t :
  exists p1 cs1 p2 cs2,
    insert_docker_tree name version server_url connect_timeout read_timeout
                       capacity t =
      update p2 (append_children cs2) (update p1 (append_children cs1) t).
Proof.
  unfold insert_docker_tree, ensure_child.
  assert (Hid : forall x, x = update [] (append_children []) x).
  { intros [tg a tx k]. unfold append_children, with_children. simpl.
    rewrite app_nil_r. reflexivity. }
  destruct (index_of_tag "clouds" (children t)) as [ci|].
  - exists [], [].
    rewrite <- (Hid t).
    destruct (children t !! ci) as [clouds|].
    + destruct (matching_entry _ _) as [i|].
      * eexists [ci; i], _. reflexivity.
      * eexists [ci], [_]. reflexivity.
    + exists [], []. apply Hid.
  - eexists [], [_].
    change (append_child ?c t) with (update [] (append_children [c]) t).
    set (t1 := update [] _ t).
    destruct (children t1 !! length (children t)) as [clouds|].
    + destruct (matching_entry _ _) as [i|].
      * eexists [_; i], _. reflexivity.
      * eexists [_], [_]. reflexivity.
    + exists [], []. apply Hid.
Qed.

(** X10: [_insert_docker] only appends.  On a [hudson] document it returns
    normally, and every element of the document is found again under the
    same handle, with the same tag, attributes and text and with no fewer
    children than before: nothing is removed, moved, renamed or rewritten. *)
Theorem insert_docker_keeps_every_element
        (name : PyVal) (version : string)
        (server_url connect_timeout read_timeout capacity : PyVal)
        (t : Element) (r : Ref) (e : Element) :
  tag t = "hudson" ->
  deref r t = Some e ->
  exists t' e',
    _insert_docker name version server_url connect_timeout read_timeout
                   capacity t = (Ok tt, t')
    /\ deref r t' = Some e'
    /\ same_node e e'.
Proof.
  intros Htag H.
  destruct (insert_docker_tree_shape name version server_url connect_timeout
              read_timeout capacity t) as (p1 & cs1 & p2 & cs2 & Hshape).
  destruct (deref_update_append cs1 p1 r t e H) as (e1 & H1 & Hs1).
  destruct (deref_update_append cs2 p2 r _ e1 H1) as (e2 & H2 & Hs2).
  exists (insert_docker_tree name version server_url connect_timeout
                             read_timeout capacity t), e2.
  split; [apply insert_docker_run; exact Htag|].
  rewrite Hshape. split; [exact H2|].
  exact (same_node_trans _ _ _ Hs1 Hs2).
Qed.

Lemma insert_docker_keeps_every_element_witness :
  (tag (hudson_with_cloud "build1") = "hudson"
   /\ deref [0; 0; 0] (hudson_with_cloud "build1")
      = Some (Elem "name" [] (Some "build1") []))
  /\ exists t' e',
       _insert_docker (PStr "other") "0.15.0" (PStr "http://d:2376")
                      (PInt 0) (PInt 0) (PInt 100)
                      (hudson_with_cloud "build1") = (Ok tt, t')
       /\ deref [0; 0; 0] t' = Some e'
       /\ same_node (Elem "name" [] (Some "build1") []) e'.
Proof.
  split; [split; reflexivity|].
  exact (insert_docker_keeps_every_element
           (PStr "other") "0.15.0" (PStr "http://d:2376") (PInt 0) (PInt 0)
           (PInt 100) (hudson_with_cloud "build1") [0; 0; 0]
           (Elem "name" [] (Some "build1") []) eq_refl eq_refl).
Defined.

Lemma list_sum_alter (g : Element -> nat) (h : Element -> Element) (k : nat) :
  forall l i c,
    l !! i = Some c -> g (h c) = g c + k ->
    list_sum (map g (alter h i l)) = list_sum (map g l) + k.
Proof.
  induction l as [|x l IH]; intros i c Hi Hg; [inversion Hi|].
  destruct i as [|i]; simpl in Hi.
  - inversion Hi; subst.
    change (alter h 0 (c :: l)) with (h c :: l).
    simpl. rewrite Hg. lia.
  - change (alter h (S i) (x :: l)) with (x :: alter h i l).
    simpl. rewrite (IH i c Hi Hg). lia.
Qed.

Lemma element_count_update (f : Element -> Element) (k : nat) :
  (forall e, element_count (f e) = element_count e + k) ->
  forall p t e, deref p t = Some e ->
                element_count (update p f t) = element_count t + k.
Proof.
  intros Hf. induction p as [|i p IH]; intros t e H; simpl in *.
  - apply Hf.
  - destruct (children t !! i) as [c|] eqn:Hc; [|discriminate].
    destruct t as [tg a x kids]. simpl in *.
    rewrite (list_sum_alter element_count (update p f) k kids i c Hc).
    + lia.
    + apply (IH c e H).
Qed.

Lemma element_count_append (cs : list Element) (e : Element) :
  element_count (append_children cs e) =
    element_count e + list_sum (map element_count cs).
Proof.
  destruct e as [tg a x kids]. simpl.
  rewrite map_app, list_sum_app. lia.
Qed.

(** X11: [_insert_docker] is never a no-op.  On every [hudson] document it
    returns normally and the document has between seven and nine elements
    more than before (the seven fields, a new entry unless one was matched,
    a [clouds] element unless there was one); in particular the document
    after a run is never the document before it. *)
Theorem insert_docker_always_adds_elements
        (name : PyVal) (version : string)
        (server_url connect_timeout read_timeout capacity : PyVal)
        (t : Element) :
  tag t = "hudson" ->
  exists t',
    _insert_docker name version server_url connect_timeout read_timeout
                   capacity t = (Ok tt, t')
    /\ element_count t + 7 <= element_count t'
    /\ element_count t' <= element_count t + 9
    /\ t' <> t.
Proof.
  intros Htag.
  exists (insert_docker_tree name version server_url connect_timeout
                             read_timeout capacity t).
  split; [apply insert_docker_run; exact Htag|].
  assert (Hcount :
    element_count t + 7 <=
      element_count (insert_docker_tree name version server_url
                       connect_timeout read_timeout capacity t)
    <= element_count t + 9).
  { unfold insert_docker_tree.
    destruct (ensure_child_lookup "clouds" t) as (clouds & Hc & _).
    assert (H1 : element_count t <= element_count (snd (ensure_child "clouds" t))
                 <= element_count t + 1).
    { unfold ensure_child.
      destruct (index_of_tag "clouds" (children t)); cbn [snd]; [lia|].
      change (append_child ?c t) with (append_children [c] t).
      rewrite element_count_append. simpl. lia. }
    destruct (ensure_child "clouds" t) as [ci t1]. cbn [fst snd] in *.
    rewrite Hc.
    assert (Hd : deref [ci] t1 = Some clouds)
      by (simpl; rewrite Hc; reflexivity).
    destruct (matching_entry _ (children clouds)) as [i|] eqn:Hm.
    - destruct (matching_entry_Some _ _ _ Hm) as (entry & He & _).
      assert (Hde : deref [ci; i] t1 = Some entry)
        by (simpl; rewrite Hc; simpl; rewrite He; reflexivity).
      rewrite (element_count_update _ 7) with (e := entry);
        [lia| |exact Hde].
      intros e. rewrite element_count_append. reflexivity.
    - rewrite (element_count_update _ 8) with (e := clouds);
        [lia| |exact Hd].
      intros e. change (append_child ?c e) with (append_children [c] e).
      rewrite element_count_append. simpl. lia. }
  split; [apply Hcount|]. split; [apply Hcount|].
  intros Heq. rewrite Heq in Hcount. lia.
Qed.

Lemma insert_docker_always_adds_elements_witness :
  tag hudson_empty = "hudson"
  /\ exists t',
       _insert_docker (PStr "build1") "0.15.0" (PStr "http://d:2376")
                      (PInt 0) (PInt 0) (PInt 100) hudson_empty = (Ok tt, t')
       /\ t' <> hudson_empty.
Proof.
  split; [reflexivity|].
  destruct (insert_docker_always_adds_elements
              (PStr "build1") "0.15.0" (PStr "http://d:2376") (PInt 0)
              (PInt 0) (PInt 100) hudson_empty eq_refl)
    as (t' & Hrun & _ & _ & Hne).
  exists t'. split; assumption.
Defined.

Lemma filter_other_alter (tagname : string) (f : Element -> Element) :
  (forall x, tag (f x) = tag x) ->
  forall l i c,
    l !! i = Some c -> tag c = tagname ->
    List.filter (fun c => negb (String.eqb (tag c) tagname)) (alter f i l) =
    List.filter (fun c => negb (String.eqb (tag c) tagname)) l.
Proof.
  intros Hf. induction l as [|x l IH]; intros i c Hi Htag; [inversion Hi|].
  destruct i as [|i]; simpl in Hi.
  - inversion Hi; subst x.
    change (alter f 0 (c :: l)) with (f c :: l).
    cbn [List.filter]. rewrite Hf, Htag, String.eqb_refl. reflexivity.
  - change (alter f (S i) (x :: l)) with (x :: alter f i l).
    cbn [List.filter]. rewrite (IH i c Hi Htag). reflexivity.
Qed.

Lemma filter_tag_nonempty (tagname : string) (l : list Element) i c :
  l !! i = Some c -> tag c = tagname ->
  1 <= length (List.filter (fun c => String.eqb (tag c) tagname) l).
Proof.
  intros Hi Htag.
  assert (Hin : In c (List.filter (fun c => String.eqb (tag c) tagname) l)).
  { apply List.filter_In. split.
    - apply list_elem_of_In, list_elem_of_lookup. eauto.
    - rewrite Htag. apply String.eqb_refl. }
  destruct (List.filter _ l); [inversion Hin|simpl; lia].
Qed.

Lemma ensure_child_counts (tagname : string) (t : Element) :
  length (children_with_tag tagname (snd (ensure_child tagname t))) =
    Nat.max 1 (length (children_with_tag tagname t))
  /\ children_without_tag tagname (snd (ensure_child tagname t)) =
       children_without_tag tagname t.
Proof.
  unfold ensure_child, children_with_tag, children_without_tag.
  destruct (index_of_tag tagname (children t)) as [i|] eqn:Hi; cbn [snd].
  - destruct (index_of_tag_Some _ _ _ Hi) as (c & Hc & _ & Htag).
    pose proof (filter_tag_nonempty tagname _ _ _ Hc Htag). split; [lia|].
    reflexivity.
  - destruct (index_of_tag_None _ _ Hi) as [_ Hnone].
    unfold append_child. cbn [children with_children].
    rewrite !List.filter_app, Hnone. simpl.
    rewrite String.eqb_refl. simpl. rewrite app_nil_r. auto.
Qed.

(** X12: [_insert_docker] makes sure the root has a [clouds] child and never
    adds a second one: afterwards the root has as many [clouds] children as
    before, or one if it had none, and its children with other tags are the
    ones it had, unchanged and in the same order. *)
Theorem insert_docker_keeps_one_clouds
        (name : PyVal) (version : string)
        (server_url connect_timeout read_timeout capacity : PyVal)
        (t : Element) :
  tag t = "hudson" ->
  exists t',
    _insert_docker name version server_url connect_timeout read_timeout
                   capacity t = (Ok tt, t')
    /\ length (children_with_tag "clouds" t') =
         Nat.max 1 (length (children_with_tag "clouds" t))
    /\ children_without_tag "clouds" t' = children_without_tag "clouds" t.
Proof.
  intros Htag.
  exists (insert_docker_tree name version server_url connect_timeout
                             read_timeout capacity t).
  split; [apply insert_docker_run; exact Htag|].
  destruct (ensure_child_counts "clouds" t) as [Hlen Hother].
  rewrite <- Hlen, <- Hother.
  unfold insert_docker_tree.
  destruct (ensure_child_lookup "clouds" t) as (clouds & Hc & Hctag).
  destruct (ensure_child "clouds" t) as [ci t1]. cbn [fst snd] in *.
  rewrite Hc.
  assert (Halter : forall g : Element -> Element,
             (forall x, tag (g x) = tag x) ->
             length (children_with_tag "clouds"
                       (with_children (alter g ci (children t1)) t1)) =
               length (children_with_tag "clouds" t1)
             /\ children_without_tag "clouds"
                  (with_children (alter g ci (children t1)) t1) =
                children_without_tag "clouds" t1).
  { intros g Hg. unfold children_with_tag, children_without_tag.
    cbn [children with_children]. split.
    - apply filter_tag_alter. exact Hg.
    - apply (filter_other_alter "clouds" g Hg _ _ _ Hc Hctag). }
  destruct (matching_entry _ (children clouds)) as [i|].
  - apply (Halter (update [i] (append_children _)) (fun x => eq_refl)).
  - apply (Halter (fun e => append_child _ e) (fun x => eq_refl)).
Qed.

Lemma insert_docker_keeps_one_clouds_witness :
  tag (hudson_with_cloud "build1") = "hudson"
  /\ exists t',
       _insert_docker (PStr "other") "0.15.0" (PStr "http://d:2376")
                      (PInt 0) (PInt 0) (PInt 100)
                      (hudson_with_cloud "build1") = (Ok tt, t')
       /\ length (children_with_tag "clouds" t') = 1.
Proof.
  split; [reflexivity|].
  destruct (insert_docker_keeps_one_clouds
              (PStr "other") "0.15.0" (PStr "http://d:2376") (PInt 0)
              (PInt 0) (PInt 100) (hudson_with_cloud "build1") eq_refl)
    as (t' & Hrun & Hlen & _).
  exists t'. split; [exact Hrun|]. rewrite Hlen. reflexivity.
Defined.

(** ** [_set_admin_email] on any document *)

Lemma index_of_tag_alter (tagname : string) (f : Element -> Element) :
  (forall x, tag (f x) = tag x) ->
  forall l i, index_of_tag tagname (alter f i l) = index_of_tag tagname l.
Proof.
  intros Hf. induction l as [|x l IH]; intros i; [reflexivity|].
  destruct i as [|i].
  - change (alter f 0 (x :: l)) with (f x :: l). simpl. rewrite Hf.
    reflexivity.
  - change (alter f (S i) (x :: l)) with (x :: alter f i l). simpl.
    rewrite (IH i). reflexivity.
Qed.

Lemma set_admin_email_tree_overwrites (first second : string) (t : Element) :
  set_admin_email_tree second (set_admin_email_tree first t) =
  set_admin_email_tree second t.
Proof.
  unfold set_admin_email_tree at 2 3.
  destruct (index_of_tag "adminAddress" (children t)) as [i|] eqn:Hi.
  - unfold set_admin_email_tree. cbn [update children with_children].
    rewrite (index_of_tag_alter "adminAddress"
               (fun e => with_text (Some first) e) (fun x => eq_refl)), Hi.
    destruct t as [tg a x kids]. cbn [update children with_children tag
                                      attrib text].
    unfold with_children. cbn [tag attrib text children]. f_equal.
    rewrite list_alter_alter_eq. apply list_alter_ext; [|reflexivity].
    intros [tg' a' x' k'] _. reflexivity.
  - unfold set_admin_email_tree.
    set (new := Elem "adminAddress" [] (Some first) []).
    cbn [children append_child with_children].
    rewrite (index_of_tag_app_new "adminAddress" new eq_refl _ Hi).
    cbn [update].
    exact (append_then_alter (with_text (Some second)) new t).
Qed.

(** X13: on every document with the expected root tag, whatever it holds,
    the last address wins and repetition changes nothing: applying
    [_set_admin_email] with a second address after a first one has the
    result of applying it with the second address alone, and applying it
    again with the address just set leaves the document as it is. *)
Theorem set_admin_email_last_write_wins
        (first second : string) (t : Element) :
  tag t = admin_root_tag ->
  exists t1,
    _set_admin_email first t = (Ok tt, t1)
    /\ _set_admin_email second t1 = _set_admin_email second t
    /\ _set_admin_email first t1 = (Ok tt, t1).
Proof.
  intros Htag. exists (set_admin_email_tree first t).
  assert (Htag1 : tag (set_admin_email_tree first t) = admin_root_tag)
    by (rewrite set_admin_email_tree_tag; exact Htag).
  split; [apply set_admin_email_run; exact Htag|].
  split.
  - rewrite (set_admin_email_run second _ Htag1).
    rewrite (set_admin_email_run second _ Htag).
    rewrite set_admin_email_tree_overwrites. reflexivity.
  - rewrite (set_admin_email_run first _ Htag1).
    rewrite set_admin_email_tree_overwrites. reflexivity.
Qed.

Lemma set_admin_email_last_write_wins_witness :
  tag admin_two_addresses = admin_root_tag
  /\ exists t1,
       _set_admin_email "ops@example.com" admin_two_addresses = (Ok tt, t1)
       /\ _set_admin_email "ops@example.com" t1 = (Ok tt, t1).
Proof.
  split; [reflexivity|].
  destruct (set_admin_email_last_write_wins
              "ops@example.com" "new@example.com" admin_two_addresses eq_refl)
    as (t1 & Hrun & _ & Hidem).
  exists t1. split; assumption.
Defined.

(** X14: [_set_admin_email] touches one element only.  On a document with
    the expected root tag it returns normally; the root keeps its tag,
    attributes and text; the children of the root other than [adminAddress]
    are the ones it had, in the same order; and of the [adminAddress]
    children only the first is rewritten (or one is added when there was
    none), the others staying as they were. *)
Theorem set_admin_email_touches_one_element
        (emailaddress : string) (t : Element) :
  tag t = admin_root_tag ->
  exists t' x,
    _set_admin_email emailaddress t = (Ok tt, t')
    /\ tag t' = tag t /\ attrib t' = attrib t /\ text t' = text t
    /\ children_without_tag "adminAddress" t' =
         children_without_tag "adminAddress" t
    /\ admin_addresses t' = x :: tail (admin_addresses t)
    /\ text x = Some emailaddress.
Proof.
  intros Htag.
  assert (Hadm := admin_addresses_after emailaddress t).
  exists (set_admin_email_tree emailaddress t),
         (match admin_addresses t with
          | [] => Elem "adminAddress" [] (Some emailaddress) []
          | x :: _ => with_text (Some emailaddress) x
          end).
  split; [apply set_admin_email_run; exact Htag|].
  split; [apply set_admin_email_tree_tag|].
  assert (Hrest :
    attrib (set_admin_email_tree emailaddress t) = attrib t
    /\ text (set_admin_email_tree emailaddress t) = text t
    /\ children_without_tag "adminAddress"
         (set_admin_email_tree emailaddress t) =
       children_without_tag "adminAddress" t).
  { unfold set_admin_email_tree, children_without_tag.
    destruct (index_of_tag "adminAddress" (children t)) as [i|] eqn:Hi.
    - destruct (index_of_tag_Some _ _ _ Hi) as (c & Hc & _ & Hctag).
      cbn [update children with_children attrib text].
      split; [reflexivity|]. split; [reflexivity|].
      apply (filter_other_alter "adminAddress"
               (fun e => with_text (Some emailaddress) e)
               (fun x => eq_refl) _ _ _ Hc Hctag).
    - unfold append_child.
      cbn [children with_children attrib text].
      split; [reflexivity|]. split; [reflexivity|].
      rewrite List.filter_app. simpl. apply app_nil_r. }
  destruct Hrest as (Ha & Hx & Ho).
  split; [exact Ha|]. split; [exact Hx|]. split; [exact Ho|].
  rewrite Hadm. destruct (admin_addresses t); auto.
Qed.

Lemma set_admin_email_touches_one_element_witness :
  tag admin_two_addresses = admin_root_tag
  /\ exists t' x,
       _set_admin_email "ops@example.com" admin_two_addresses = (Ok tt, t')
       /\ admin_addresses t' =
            [x; Elem "adminAddress" [] (Some "other@example.com") []]
       /\ text x = Some "ops@example.com".
Proof.
  split; [reflexivity|].
  destruct (set_admin_email_touches_one_element
              "ops@example.com" admin_two_addresses eq_refl)
    as (t' & x & Hrun & _ & _ & _ & _ & Hadm & Hx).
  exists t', x. split; [exact Hrun|]. split; [exact Hadm|exact Hx].
Defined.
